(** * fin-tables-ocr: the Truist statement parser, embedded and verified

    A shallow embedding of the statement segmentation and transaction
    extraction engine of [fin_tables_ocr]:

    - [models.py]                       ([TransactionType], [Transaction],
                                         [BankStatement]);
    - [banks/truist/table_parsers.py]   ([parse_amount], [parse_date], the
                                         three page extractors, the line
                                         parser and the section markers);
    - [banks/truist/page_classifier.py] ([is_transaction_page],
                                         [classify_pages]);
    - [banks/truist/parser.py]          ([TruistParser]);
    - [banks/detector.py], [extractor.py].

    Conventions of the embedding.

    - A Python [str] is a [list ascii], one element per character: the
      characters are the code points 0 to 255 (Latin-1), with Python's
      whitespace, digits and case conversion on that range.  A string
      literal of this file is decoded by [txt].
    - A page is what [pdfplumber] hands over: only [extract_text] is used.
    - Exceptions are values: fallible code returns a [result], and a
      [try]/[except] is a [catch] that lists the classes it handles.
    - [re] is embedded as a backtracking matcher over the pattern syntax the
      program uses; patterns are kept as the source writes them and are
      compiled by [re_compile].
    - The library calls [Decimal(...)], [int(...)], [date(...)] and
      [list.sort] are modelled after their documented behaviour, and
      [date(...)] after CPython's as well: its arguments are read as C
      integers, and one that does not fit raises [OverflowError]. *)

From Stdlib Require Import ZArith Lia Ascii String.
From stdpp Require Import gmap strings list sorting.

Open Scope string_scope.
Open Scope list_scope.

(** ** Text *)

Abbreviation str := (list ascii).

Module Char.

Definition code (c : ascii) : nat := nat_of_ascii c.

(** [str.isdecimal], which is what [\d] and [int] test: the ten digits. *)
Definition is_digit (c : ascii) : bool :=
  (48 <=? code c)%nat && (code c <=? 57)%nat.

(** [str.isspace], which is what [\s] and [strip] test: tab, line feed,
    vertical tab, form feed, carriage return, the separators 28 to 31,
    space, next line (133) and the no-break space (160). *)
Definition is_space (c : ascii) : bool :=
  ((9 <=? code c)%nat && (code c <=? 13)%nat)
  || ((28 <=? code c)%nat && (code c <=? 32)%nat)
  || (code c =? 133)%nat
  || (code c =? 160)%nat.

Definition is_upper (c : ascii) : bool :=
  ((65 <=? code c)%nat && (code c <=? 90)%nat)
  || ((192 <=? code c)%nat && (code c <=? 222)%nat && negb (code c =? 215)%nat).

Definition is_lower (c : ascii) : bool :=
  ((97 <=? code c)%nat && (code c <=? 122)%nat)
  || ((224 <=? code c)%nat && (code c <=? 254)%nat && negb (code c =? 247)%nat).

(** [c.lower()]. *)
Definition lower (c : ascii) : ascii :=
  if is_upper c then ascii_of_nat (code c + 32) else c.

(** [c.upper()] as a string: the sharp s (223) becomes two letters.  The
    micro sign and the y with diaeresis have capitals beyond code 255; they
    are left as they are, which no test of the program can tell apart. *)
Definition upper (c : ascii) : str :=
  if is_lower c then [ascii_of_nat (code c - 32)]
  else if (code c =? 223)%nat then ["S"; "S"]%char
  else [c].

Definition eqb (a b : ascii) : bool := Ascii.eqb a b.

Definition digit_val (c : ascii) : N := N.of_nat (code c - 48).

End Char.

(** The characters of a string literal: the literal is UTF-8, and a
    two-byte sequence led by 194 or 195 is one character below 256. *)
Fixpoint decode (lead : nat) (bytes : str) : str :=
  match bytes with
  | [] => []
  | b :: rest =>
      match lead with
      | 0 =>
          if (Char.code b =? 194)%nat || (Char.code b =? 195)%nat
          then decode (Char.code b) rest
          else b :: decode 0 rest
      | _ => ascii_of_nat (Char.code b + 64 * (lead - 194)) :: decode 0 rest
      end
  end.

Definition txt (s : string) : str := decode 0 (list_ascii_of_string s).

Definition NL : ascii := ascii_of_nat 10.

(** ** The [str] methods the program calls *)

Module Str.

Definition lower (s : str) : str := map Char.lower s.
Definition upper (s : str) : str := flat_map Char.upper s.

Fixpoint eqb (a b : str) : bool :=
  match a, b with
  | [], [] => true
  | x :: a', y :: b' => Char.eqb x y && eqb a' b'
  | _, _ => false
  end.

Fixpoint starts_with (p s : str) : bool :=
  match p, s with
  | [], _ => true
  | x :: p', y :: s' => Char.eqb x y && starts_with p' s'
  | _ :: _, [] => false
  end.

(** [needle in hay]. *)
Fixpoint contains (needle hay : str) : bool :=
  starts_with needle hay
  || match hay with
     | [] => false
     | _ :: hay' => contains needle hay'
     end.

(** [s[a:b]] for offsets that are not negative: an empty string when
    [b <= a], and clipped at the end of [s]. *)
Definition slice (a b : nat) (s : str) : str := take (b - a) (drop a s).

(** [s[a:]]. *)
Definition from (a : nat) (s : str) : str := drop a s.

Fixpoint lstrip (s : str) : str :=
  match s with
  | c :: s' => if Char.is_space c then lstrip s' else s
  | [] => []
  end.

Definition rstrip (s : str) : str := rev (lstrip (rev s)).

(** [s.strip()]. *)
Definition strip (s : str) : str := rstrip (lstrip s).

(** [s.replace(c, str())] for a one-character [c]. *)
Definition remove (c : ascii) (s : str) : str :=
  filter (fun x => Char.eqb x c = false) s.

(** [s.split(c)] for a one-character separator: never an empty list. *)
Fixpoint split (c : ascii) (s : str) : list str :=
  match s with
  | [] => [[]]
  | x :: s' =>
      if Char.eqb x c then [] :: split c s'
      else match split c s' with
           | l :: ls => (x :: l) :: ls
           | [] => [[x]]
           end
  end.

Definition all_digits (s : str) : bool := forallb Char.is_digit s.

(** The value of a run of decimal digits, most significant first. *)
Definition digits_val (s : str) : N :=
  fold_left (fun acc c => 10 * acc + Char.digit_val c)%N s 0%N.

End Str.

(** ** Exceptions *)

(** The exception classes that occur.  pydantic's [ValidationError] is a
    subclass of [ValueError] and is caught as one: it is [ValueError] here.
    [OverflowError] is no subclass of [ValueError] or [InvalidOperation]. *)
Inductive exn : Set :=
| ValueError
| InvalidOperation
| OverflowError
| TypeError
| AttributeError
| IndexError
| RuntimeError
| FileNotFoundError.

Global Instance exn_eq_dec : EqDecision exn.
Proof. solve_decision. Defined.

Inductive result (A : Type) : Type :=
| Ok (a : A)
| Raise (e : exn).
Arguments Ok {A} a.
Arguments Raise {A} e.

Definition bind {A B} (r : result A) (f : A -> result B) : result B :=
  match r with
  | Ok a => f a
  | Raise e => Raise e
  end.

Notation "x <- r ;; k" := (bind r (fun x => k))
  (at level 100, r at next level, right associativity).

(** [try: body  except (classes): handler]. *)
Definition catch {A} (body : result A) (classes : list exn) (handler : result A)
  : result A :=
  match body with
  | Ok a => Ok a
  | Raise e => if bool_decide (e ∈ classes) then handler else Raise e
  end.

Definition raises {A} (r : result A) : bool :=
  match r with
  | Ok _ => false
  | Raise _ => true
  end.

(** [for x in xs: body], where [body] reads and updates the loop's state and
    an exception that leaves [body] ends the loop. *)
Fixpoint for_each {A S} (xs : list A) (body : A -> S -> result S) (st : S)
  : result S :=
  match xs with
  | [] => Ok st
  | x :: xs' => st' <- body x st ;; for_each xs' body st'
  end.

(** ** Regular expressions: the part of [re] the program uses *)

Module Re.

(** What one pattern character stands for. *)
Inductive catom : Set :=
| AChar (c : ascii)   (* a literal character *)
| ADigit              (* \d *)
| ASpace              (* \s *)
| AAny.               (* .  : any character but a line feed *)

(** A character class: a literal, an escape, [.], or a set [[...]]. *)
Definition cclass : Set := list catom.

Inductive regex : Set :=
| REps
| RChr (cc : cclass)
| RSeq (r1 r2 : regex)
| RAlt (r1 r2 : regex)
| RRep (cc : cclass) (lo : nat) (hi : option nat) (greedy : bool)
| RGroup (i : nat) (r : regex)
| RBol
| REol
| RFail.

(** *** Reading a pattern *)

Definition is_meta (c : ascii) : bool :=
  bool_decide (c ∈ txt "\.^$*+?{}[]()|").

Definition is_alnum (c : ascii) : bool :=
  Char.is_digit c || Char.is_upper c || Char.is_lower c.

(** The meaning of [\c]: the classes [\s] and [\d], the line feed [\n], and
    a punctuation character standing for itself. *)
Definition escape (c : ascii) : option catom :=
  if Char.eqb c "s" then Some ASpace
  else if Char.eqb c "d" then Some ADigit
  else if Char.eqb c "n" then Some (AChar NL)
  else if is_alnum c then None
  else Some (AChar c).

(** The inside of [[...]], up to the closing bracket. *)
Fixpoint parse_set (p : str) : option (cclass * str) :=
  match p with
  | [] => None
  | c :: p' =>
      if Char.eqb c "]" then Some ([], p')
      else if Char.eqb c "\" then
        match p' with
        | e :: p'' =>
            match escape e, parse_set p'' with
            | Some a, Some (cc, rest) => Some (a :: cc, rest)
            | _, _ => None
            end
        | [] => None
        end
      else if Char.eqb c "-" || Char.eqb c "^" || Char.eqb c "[" then None
      else match parse_set p' with
           | Some (cc, rest) => Some (AChar c :: cc, rest)
           | None => None
           end
  end.

(** A run of digits, as in a counted repetition. *)
Fixpoint parse_nat (p : str) (acc : nat) : nat * str :=
  match p with
  | c :: p' =>
      if Char.is_digit c then parse_nat p' (10 * acc + (Char.code c - 48))
      else (acc, p)
  | [] => (acc, p)
  end.

(** A quantifier after a one-character atom: [*], [+], [?] or [{n}], each
    lazy when a [?] follows. *)
Definition parse_quant (cc : cclass) (p : str) : option (regex * str) :=
  let greedy_of (p : str) : bool * str :=
    match p with
    | c :: p' => if Char.eqb c "?" then (false, p') else (true, p)
    | [] => (true, p)
    end in
  match p with
  | c :: p' =>
      if Char.eqb c "*" then
        let '(g, rest) := greedy_of p' in Some (RRep cc 0 None g, rest)
      else if Char.eqb c "+" then
        let '(g, rest) := greedy_of p' in Some (RRep cc 1 None g, rest)
      else if Char.eqb c "?" then
        let '(g, rest) := greedy_of p' in Some (RRep cc 0 (Some 1) g, rest)
      else if Char.eqb c "{" then
        match parse_nat p' 0 with
        | (n, d :: p'') =>
            if Char.eqb d "}" && negb (Str.starts_with (txt "}") p') then
              let '(g, rest) := greedy_of p'' in Some (RRep cc n (Some n) g, rest)
            else None
        | (_, []) => None
        end
      else Some (RChr cc, p)
  | [] => Some (RChr cc, p)
  end.

Definition then_ (r1 r2 : regex) : regex :=
  match r2 with
  | REps => r1
  | _ => RSeq r1 r2
  end.

(** Alternatives, sequences and atoms.  Groups are numbered by their opening
    parenthesis, from 1.  A quantifier on a group, a character range and a
    negated set are outside the syntax read here: [None]. *)
Fixpoint parse_alt (fuel : nat) (p : str) (g : nat)
  : option (regex * str * nat) :=
  match fuel with
  | 0 => None
  | S fuel =>
      match parse_seq fuel p g with
      | Some (r1, c :: p', g') =>
          if Char.eqb c "|" then
            match parse_alt fuel p' g' with
            | Some (r2, rest, g'') => Some (RAlt r1 r2, rest, g'')
            | None => None
            end
          else Some (r1, c :: p', g')
      | other => other
      end
  end
with parse_seq (fuel : nat) (p : str) (g : nat)
  : option (regex * str * nat) :=
  match fuel with
  | 0 => None
  | S fuel =>
      let one (cc : cclass) (p' : str) :=
        match parse_quant cc p' with
        | Some (r, p'') =>
            match parse_seq fuel p'' g with
            | Some (r', rest, g') => Some (then_ r r', rest, g')
            | None => None
            end
        | None => None
        end in
      let anchor (r : regex) (p' : str) :=
        match parse_seq fuel p' g with
        | Some (r', rest, g') => Some (then_ r r', rest, g')
        | None => None
        end in
      match p with
      | [] => Some (REps, [], g)
      | c :: p' =>
          if Char.eqb c "|" || Char.eqb c ")" then Some (REps, p, g)
          else if Char.eqb c "(" then
            match parse_alt fuel p' (S g) with
            | Some (r, d :: p'', g') =>
                if Char.eqb d ")"
                   && negb (match p'' with
                            | q :: _ => bool_decide (q ∈ txt "*+?{")
                            | [] => false
                            end)
                then
                  match parse_seq fuel p'' g' with
                  | Some (r', rest, g'') => Some (then_ (RGroup g r) r', rest, g'')
                  | None => None
                  end
                else None
            | _ => None
            end
          else if Char.eqb c "[" then
            match parse_set p' with
            | Some (cc, p'') => one cc p''
            | None => None
            end
          else if Char.eqb c "\" then
            match p' with
            | e :: p'' =>
                match escape e with
                | Some a => one [a] p''
                | None => None
                end
            | [] => None
            end
          else if Char.eqb c "." then one [AAny] p'
          else if Char.eqb c "^" then anchor RBol p'
          else if Char.eqb c "$" then anchor REol p'
          else if is_meta c then None
          else one [AChar c] p'
      end
  end.

(** [re.compile(pattern)]; a pattern outside the syntax matches nothing. *)
Definition re_compile (pattern : string) : regex :=
  let p := txt pattern in
  match parse_alt (2 * length p + 2) p 1 with
  | Some (r, [], _) => r
  | _ => RFail
  end.

(** *** Matching *)

(** [accepts ic a c]: character [c] is one that [a] stands for; under
    [re.IGNORECASE] ([ic]) letters are compared without their case. *)
Definition accepts (ic : bool) (a : catom) (c : ascii) : bool :=
  match a with
  | AChar x =>
      if ic then Char.eqb (Char.lower x) (Char.lower c) else Char.eqb x c
  | ADigit => Char.is_digit c
  | ASpace => Char.is_space c
  | AAny => negb (Char.eqb c NL)
  end.

Definition cmatch (ic : bool) (cc : cclass) (c : ascii) : bool :=
  existsb (fun a => accepts ic a c) cc.

(** Captured groups: the most recent capture of a group comes first. *)
Definition captures : Set := list (nat * (nat * nat)).

Section Matcher.

Context {R : Type}.
Variable ic : bool.

(** The continuation of a match: where it stands in the text (the offset and
    what is left to read) and what was captured so far. *)
Definition cont : Type := nat -> str -> captures -> option R.

Definition or_else (a : option R) (b : unit -> option R) : option R :=
  match a with
  | Some x => Some x
  | None => b tt
  end.

(** A quantified class: between [lo] and [hi] characters, as many as the
    rest of the pattern allows when greedy, as few when lazy. *)
Fixpoint rep (cc : cclass) (lo : nat) (hi : option nat) (greedy : bool)
    (pos : nat) (s : str) (caps : captures) (k : cont) {struct s} : option R :=
  let more (_ : unit) : option R :=
    match s with
    | c :: s' =>
        if cmatch ic cc c
           && negb (bool_decide (hi = Some 0))
        then rep cc (pred lo) (pred <$> hi) greedy (S pos) s' caps k
        else None
    | [] => None
    end in
  match lo with
  | S _ => more tt
  | 0 =>
      if greedy then or_else (more tt) (fun _ => k pos s caps)
      else or_else (k pos s caps) more
  end.

(** The backtracking matcher: alternatives are tried from left to right and
    the first way through the whole pattern wins. *)
Fixpoint run (r : regex) (pos : nat) (s : str) (caps : captures) (k : cont)
  : option R :=
  match r with
  | REps => k pos s caps
  | RChr cc =>
      match s with
      | c :: s' => if cmatch ic cc c then k (S pos) s' caps else None
      | [] => None
      end
  | RSeq r1 r2 =>
      run r1 pos s caps (fun pos' s' caps' => run r2 pos' s' caps' k)
  | RAlt r1 r2 =>
      or_else (run r1 pos s caps k) (fun _ => run r2 pos s caps k)
  | RRep cc lo hi greedy => rep cc lo hi greedy pos s caps k
  | RGroup i r =>
      run r pos s caps (fun pos' s' caps' => k pos' s' ((i, (pos, pos')) :: caps'))
  | RBol => if bool_decide (pos = 0) then k pos s caps else None
  | REol =>
      match s with
      | [] => k pos s caps
      | [c] => if Char.eqb c NL then k pos s caps else None
      | _ => None
      end
  | RFail => None
  end.

End Matcher.

(** A match object: [start()], [end()] and the groups. *)
Record Match : Set := mkMatch {
  m_start : nat;
  m_end : nat;
  m_caps : captures
}.

Definition finish (start : nat) : cont (R := Match) :=
  fun pos _ caps => Some (mkMatch start pos caps).

(** The match that begins at offset [pos], where [s] is the text from there. *)
Definition match_at (ic : bool) (r : regex) (pos : nat) (s : str) : option Match :=
  run ic r pos s [] (finish pos).

(** [re.match(r, text)]. *)
Definition re_match (ic : bool) (r : regex) (text : str) : option Match :=
  match_at ic r 0 text.

Fixpoint search_from (ic : bool) (r : regex) (pos : nat) (s : str)
  : option Match :=
  match match_at ic r pos s with
  | Some m => Some m
  | None =>
      match s with
      | [] => None
      | _ :: s' => search_from ic r (S pos) s'
      end
  end.

(** [re.search(r, text)]: the leftmost match. *)
Definition re_search (ic : bool) (r : regex) (text : str) : option Match :=
  search_from ic r 0 text.

(** The matches from offset [pos] on, from left to right and without
    overlap; [skip] characters are still inside the previous match. *)
Fixpoint finditer_from (ic : bool) (r : regex) (pos : nat) (s : str)
    (skip : nat) : list Match :=
  match skip with
  | S n =>
      match s with
      | [] => []
      | _ :: s' => finditer_from ic r (S pos) s' n
      end
  | 0 =>
      match match_at ic r pos s with
      | Some m =>
          m :: match s with
               | [] => []
               | _ :: s' => finditer_from ic r (S pos) s' (m_end m - pos - 1)
               end
      | None =>
          match s with
          | [] => []
          | _ :: s' => finditer_from ic r (S pos) s' 0
          end
      end
  end.

(** [re.finditer(r, text)], as a list. *)
Definition re_finditer (ic : bool) (r : regex) (text : str) : list Match :=
  finditer_from ic r 0 text 0.

(** [m.group(i)] for a group that took part in the match ([None] otherwise),
    read off the text the match was made on. *)
Definition group (text : str) (m : Match) (i : nat) : option str :=
  match list_find (fun c => c.1 = i) (m_caps m) with
  | Some (_, (_, (a, b))) => Some (Str.slice a b text)
  | None => None
  end.

(** [m.group()]: the whole match. *)
Definition group0 (text : str) (m : Match) : str :=
  Str.slice (m_start m) (m_end m) text.

End Re.

Import Re.

(** ** Library values: [int], [Decimal], [date] and [list.sort] *)

(** [o] used where Python needs a string: [None] has no string methods. *)
Definition the_str (o : option str) : result str :=
  match o with
  | Some s => Ok s
  | None => Raise AttributeError
  end.

(** [m.groups()] unpacked into three names.  A group that took no part in
    the match is [None]; the program uses every group as a string at once,
    which raises on [None]: the model raises at the unpacking. *)
Definition groups3 (text : str) (m : Match) : result (str * str * str) :=
  a <- the_str (group text m 1) ;;
  b <- the_str (group text m 2) ;;
  c <- the_str (group text m 3) ;;
  Ok (a, b, c).

(** The sign that may lead a number. *)
Definition split_sign (s : str) : bool * str :=
  match s with
  | c :: s' =>
      if Char.eqb c "-" then (true, s')
      else if Char.eqb c "+" then (false, s')
      else (false, s)
  | [] => (false, s)
  end.

(** The digits [s] begins with, and what follows them. *)
Fixpoint span_digits (s : str) : str * str :=
  match s with
  | c :: s' =>
      if Char.is_digit c then
        let '(ds, rest) := span_digits s' in (c :: ds, rest)
      else ([], s)
  | [] => ([], [])
  end.

(** Digits with single underscores between them, as [int] accepts. *)
Fixpoint grouped_digits (after_digit : bool) (s : str) : bool :=
  match s with
  | [] => after_digit
  | c :: s' =>
      if Char.is_digit c then grouped_digits true s'
      else if Char.eqb c "_" then after_digit && grouped_digits false s'
      else false
  end.

(** [int(s)] in base ten: surrounding whitespace, an optional sign, and
    digits; [ValueError] on anything else. *)
Definition int (s : str) : result Z :=
  let '(neg, body) := split_sign (Str.strip s) in
  if grouped_digits false body then
    let n := Z.of_N (Str.digits_val (Str.remove "_" body)) in
    Ok (if neg then - n else n)%Z
  else Raise ValueError.

Module decimal.

(** A [Decimal]: the number [(-1)^sign * coefficient * 10^exponent], an
    infinity, or a (quiet or signaling) NaN with its payload. *)
Inductive Decimal : Set :=
| Finite (sign : bool) (coefficient : N) (exponent : Z)
| Infinity (sign : bool)
| NaN (sign : bool) (signaling : bool) (payload : N).

(** The exponent part: nothing, or [e] or [E], an optional sign, digits. *)
Definition exponent_part (s : str) : option Z :=
  match s with
  | [] => Some 0%Z
  | c :: s' =>
      if Char.eqb (Char.lower c) "e" then
        let '(neg, ds) := split_sign s' in
        if Str.all_digits ds && negb (Str.eqb ds []) then
          Some (if neg then - Z.of_N (Str.digits_val ds)
                else Z.of_N (Str.digits_val ds))%Z
        else None
      else None
  end.

(** [Infinity], [Inf], [NaN] and [sNaN], in any case; a NaN may carry digits. *)
Definition special (sign : bool) (s : str) : option Decimal :=
  let l := Str.lower s in
  if Str.eqb l (txt "inf") || Str.eqb l (txt "infinity") then
    Some (Infinity sign)
  else if Str.starts_with (txt "nan") l && Str.all_digits (drop 3 l) then
    Some (NaN sign false (Str.digits_val (drop 3 l)))
  else if Str.starts_with (txt "snan") l && Str.all_digits (drop 4 l) then
    Some (NaN sign true (Str.digits_val (drop 4 l)))
  else None.

(** [Decimal(s)]: whitespace around the number and underscores are dropped;
    then an optional sign and either digits with an optional point and an
    optional exponent, or a special value.  [InvalidOperation] otherwise. *)
Definition of_str (s : str) : result Decimal :=
  let '(sign, body) := split_sign (Str.remove "_" (Str.strip s)) in
  let '(int_part, rest) := span_digits body in
  let '(frac_part, rest) :=
    match rest with
    | c :: rest' => if Char.eqb c "." then span_digits rest' else ([], rest)
    | [] => ([], rest)
    end in
  match int_part ++ frac_part with
  | [] =>
      match special sign body with
      | Some d => Ok d
      | None => Raise InvalidOperation
      end
  | digits =>
      match exponent_part rest with
      | Some e =>
          Ok (Finite sign (Str.digits_val digits) (e - Z.of_nat (length frac_part)))
      | None => Raise InvalidOperation
      end
  end.

(** [0 <= d] for a number. *)
Definition nonneg (d : Decimal) : bool :=
  match d with
  | Finite sign c _ => negb sign || (c =? 0)%N
  | _ => false
  end.

End decimal.

Module datetime.

Record date : Set := mkdate {
  year : Z;
  month : Z;
  day : Z
}.

Definition is_leap (y : Z) : bool :=
  ((y mod 4 =? 0) && (negb (y mod 100 =? 0) || (y mod 400 =? 0)))%Z.

Definition days_in_month (y m : Z) : Z :=
  if (m =? 2)%Z then (if is_leap y then 29 else 28)%Z
  else if ((m =? 4) || (m =? 6) || (m =? 9) || (m =? 11))%Z then 30%Z
  else 31%Z.

(** [z] fits a C [int], which has 32 bits. *)
Definition c_int (z : Z) : bool :=
  ((-2147483648 <=? z) && (z <=? 2147483647))%Z.

(** [date(y, m, d)].  The constructor reads its three arguments as C
    integers, and raises [OverflowError] when one does not fit; then it
    raises [ValueError] unless [1 <= y <= 9999], [1 <= m <= 12] and [d] is
    a day of that month. *)
Definition new (y m d : Z) : result date :=
  if negb (c_int y && c_int m && c_int d) then Raise OverflowError
  else if ((1 <=? y) && (y <=? 9999) && (1 <=? m) && (m <=? 12)
           && (1 <=? d) && (d <=? days_in_month y m))%Z
  then Ok (mkdate y m d)
  else Raise ValueError.

(** [a < b] and [a == b]. *)
Definition ltb (a b : date) : bool :=
  ((year a <? year b)
   || ((year a =? year b)
       && ((month a <? month b)
           || ((month a =? month b) && (day a <? day b)))))%Z.

Definition eqb (a b : date) : bool :=
  ((year a =? year b) && (month a =? month b) && (day a =? day b))%Z.

End datetime.

(** [a < b] on strings: by the first character that differs, a proper
    prefix being smaller. *)
Fixpoint str_ltb (a b : str) : bool :=
  match a, b with
  | _, [] => false
  | [], _ :: _ => true
  | x :: a', y :: b' =>
      (Char.code x <? Char.code y)%nat
      || ((Char.code x =? Char.code y)%nat && str_ltb a' b')
  end.

Section Sort.

Context {A : Type}.
(** [lt a b]: the key of [a] is smaller than the key of [b]. *)
Variable lt : A -> A -> bool.

(** [x] goes before the first element whose key is not smaller than its
    own, so before its equals. *)
Fixpoint insert_before (x : A) (l : list A) : list A :=
  match l with
  | [] => [x]
  | y :: l' => if lt y x then y :: insert_before x l' else x :: l
  end.

(** [l.sort(key=...)]: the order of the keys, elements of equal keys in the
    order they had (the sort is stable, so this is its only result). *)
Fixpoint sort (l : list A) : list A :=
  match l with
  | [] => []
  | x :: l' => insert_before x (sort l')
  end.

End Sort.

(** ** [models.py] *)

Inductive TransactionType : Set :=
| CHECK
| WITHDRAWAL
| DEPOSIT.

Global Instance TransactionType_eq_dec : EqDecision TransactionType.
Proof. solve_decision. Defined.

(** The value of a member: the enumeration is a [str] enumeration. *)
Definition value (t : TransactionType) : str :=
  match t with
  | CHECK => txt "check"
  | WITHDRAWAL => txt "withdrawal"
  | DEPOSIT => txt "deposit"
  end.

Record Transaction : Set := mkTransaction {
  date : datetime.date;
  description : str;
  amount : decimal.Decimal;
  transaction_type : TransactionType;
  check_number : option Z;
  lender_matches : option (list str);
  is_lender_transfer : bool;
  is_lender_payment : bool
}.

(** [Transaction(date=..., description=..., amount=..., transaction_type=...,
    check_number=...)]: the model validates [amount] against [Field(ge=0)]
    and raises [ValidationError] otherwise; the lender fields take their
    defaults. *)
Definition Transaction_new (date : datetime.date) (description : str)
    (amount : decimal.Decimal) (transaction_type : TransactionType)
    (check_number : option Z) : result Transaction :=
  if decimal.nonneg amount then
    Ok (mkTransaction date description amount transaction_type check_number
          None false false)
  else Raise ValueError.

Record BankStatement : Set := mkBankStatement {
  bank_name : str;
  account_number : option str;
  statement_period_start : option datetime.date;
  statement_period_end : option datetime.date;
  transactions : list Transaction
}.

Definition checks (s : BankStatement) : list Transaction :=
  filter (fun t => transaction_type t = CHECK) (transactions s).

Definition withdrawals (s : BankStatement) : list Transaction :=
  filter (fun t => transaction_type t = WITHDRAWAL) (transactions s).

Definition deposits (s : BankStatement) : list Transaction :=
  filter (fun t => transaction_type t = DEPOSIT) (transactions s).

(** ** [pdfplumber]: what the program reads of a document *)

Record Page : Set := mkPage {
  extract_text : option str
}.

Record PDF : Set := mkPDF {
  pages : list Page
}.

(** [page.extract_text() or str()]: the text, empty when there is none. *)
Definition text_of (page : Page) : str :=
  match extract_text page with
  | Some s => s
  | None => []
  end.

(** ** [banks/truist/table_parsers.py] *)

Definition parse_amount (amount_str : str) : result decimal.Decimal :=
  let cleaned := Str.strip (Str.remove "," amount_str) in
  decimal.of_str cleaned.

(** [month, day = date_str.split("/")] raises [ValueError] unless there are
    exactly two parts. *)
Definition parse_date (date_str : str) (year : Z) : result datetime.date :=
  match Str.split "/" date_str with
  | [month; day] =>
      m <- int month ;;
      d <- int day ;;
      datetime.new year m d
  | _ => Raise ValueError
  end.

Definition CHECKS_HEADER : regex := re_compile "Checks\s*\n".

Definition CHECKS_END : regex :=
  re_compile "(Total\s*checks|\*\s*indicates|Other\s*withdraw|Otherwithdraw|DATE\s+DESCRIPTION\s+AMOUNT)".

Definition check_pattern : regex :=
  re_compile "(\d{2}/\d{2})\s+\*?(\d+)\s+([\d,]+\.\d{2})".

(** One turn of the loop over the check entries: the record is appended,
    or the entry is passed over when a conversion raises. *)
Definition check_step (checks_text : str) (year : Z) (m : Match)
    (transactions : list Transaction) : result (list Transaction) :=
  g <- groups3 checks_text m ;;
  let '(date_str, check_num, amount_str) := g in
  catch
    (d <- parse_date date_str year ;;
     a <- parse_amount amount_str ;;
     n <- int check_num ;;
     t <- Transaction_new d (txt "Check #" ++ check_num) a CHECK (Some n) ;;
     Ok (transactions ++ [t]))
    [ValueError; InvalidOperation]
    (Ok transactions).

(** The text between the checks header and the next section. *)
Definition checks_span (text : str) : option (nat * nat) :=
  match re_search true CHECKS_HEADER text with
  | None => None
  | Some checks_match =>
      let checks_start := m_end checks_match in
      let next_section := re_search true CHECKS_END (Str.from checks_start text) in
      let checks_end :=
        match next_section with
        | Some ns => checks_start + m_start ns
        | None => length text
        end in
      Some (checks_start, checks_end)
  end.

Definition extract_checks_from_page (page : Page) (year : Z)
  : result (list Transaction) :=
  let text := text_of page in
  match checks_span text with
  | None => Ok []
  | Some (checks_start, checks_end) =>
      let checks_text := Str.slice checks_start checks_end text in
      for_each (re_finditer false check_pattern checks_text)
        (check_step checks_text year) []
  end.

Definition line_pattern : regex :=
  re_compile "^(\d{2}/\d{2})\s+(.+?)\s+([\d,]+\.\d{2})\s*$".

(** One turn of the loop over the lines of a block: headers and footers are
    passed over, and so is a line that is no transaction, has a description
    shorter than three characters, or whose conversion raises. *)
Definition line_step (year : Z) (transaction_type : TransactionType)
    (line : str) (transactions : list Transaction)
  : result (list Transaction) :=
  let line_upper := Str.upper line in
  if Str.contains (txt "DESCRIPTION") line_upper
     && Str.contains (txt "AMOUNT") line_upper then Ok transactions
  else if Str.contains (txt "DATE") line_upper
          && Str.contains (txt "CHECK") line_upper then Ok transactions
  else if Str.contains (txt "CONTINUED") line_upper then Ok transactions
  else if Str.contains (txt "PAGE") line_upper
          && Str.contains (txt "OF") line_upper then Ok transactions
  else
    match re_match false line_pattern (Str.strip line) with
    | Some m =>
        g <- groups3 (Str.strip line) m ;;
        let '(date_str, description, amount_str) := g in
        let description := Str.strip description in
        if Str.eqb description [] || (length description <? 3)%nat then
          Ok transactions
        else
          catch
            (d <- parse_date date_str year ;;
             a <- parse_amount amount_str ;;
             t <- Transaction_new d description a transaction_type None ;;
             Ok (transactions ++ [t]))
            [ValueError; InvalidOperation]
            (Ok transactions)
    | None => Ok transactions
    end.

Definition _extract_transactions_from_text (text : str) (year : Z)
    (transaction_type : TransactionType) : result (list Transaction) :=
  let lines := Str.split NL text in
  for_each lines (line_step year transaction_type) [].

Definition TABLE_HEADER : regex := re_compile "DATE\s+DESCRIPTION\s+AMOUNT".

Definition WITHDRAW_HEADER : regex :=
  re_compile "(Other\s*withdrawals?,?\s*debits|Otherwithdrawals?,?debits)".

Definition DEPOSIT_HEADER : regex :=
  re_compile "(Deposits,?\s*credits\s*and\s*interest|Deposits,?creditsandinterest)".

Definition TOTAL_WITHDRAW : regex :=
  re_compile "Total\s*other\s*withdrawals|Totalotherwithdrawals".

Definition TOTAL_DEPOSIT : regex :=
  re_compile "Total\s*deposits|Totaldeposits".

(** [key in markers]. *)
Definition has_key (key : string) (markers : gmap string nat) : bool :=
  bool_decide (is_Some (markers !! key)).

(** What one table header adds to the markers: the section header found in
    the hundred characters before it, unless that header is already known
    or stands in a [Total] line. *)
Definition header_step (text : str) (markers : gmap string nat) (th : Match)
  : gmap string nat :=
  let prefix := Str.slice (Nat.max 0 (m_start th - 100)) (m_start th) text in
  let markers :=
    match re_search true WITHDRAW_HEADER prefix with
    | Some withdraw_match =>
        if negb (has_key "withdraw_header" markers) then
          let match_prefix :=
            Str.slice (Nat.max 0 (m_start withdraw_match - 10))
              (m_start withdraw_match) prefix in
          if negb (Str.contains (txt "total") (Str.lower match_prefix)) then
            <["withdraw_table" := m_end th]>
              (<["withdraw_header" :=
                   m_start th - length prefix + m_start withdraw_match]> markers)
          else markers
        else markers
    | None => markers
    end in
  match re_search true DEPOSIT_HEADER prefix with
  | Some deposit_match =>
      if negb (has_key "deposit_header" markers) then
        let match_prefix :=
          Str.slice (Nat.max 0 (m_start deposit_match - 10))
            (m_start deposit_match) prefix in
        if negb (Str.contains (txt "total") (Str.lower match_prefix)) then
          <["deposit_table" := m_end th]>
            (<["deposit_header" :=
                 m_start th - length prefix + m_start deposit_match]> markers)
        else markers
      else markers
  | None => markers
  end.

Definition _find_section_markers (text : str) : gmap string nat :=
  let table_headers := re_finditer true TABLE_HEADER text in
  let markers := foldl (header_step text) ∅ table_headers in
  let markers :=
    match re_search true TOTAL_WITHDRAW text with
    | Some total_withdraw => <["total_withdraw" := m_start total_withdraw]> markers
    | None => markers
    end in
  match re_search true TOTAL_DEPOSIT text with
  | Some total_deposit => <["total_deposit" := m_start total_deposit]> markers
  | None => markers
  end.

(** [("(continued)" in text[:200].lower())]. *)
Definition is_continuation (text : str) : bool :=
  Str.contains (txt "(continued)") (Str.lower (Str.slice 0 200 text)).

Definition deposit_indicators : list str :=
  [txt "DEPOSIT"; txt "EDI PYMNTS"; txt "PAYABLES"; txt "INCOMING WIRE"].

Definition withdrawal_indicators : list str :=
  [txt "DEBIT"; txt "ACH CORP DEBIT"; txt "WIRE REF#"; txt "ZELLE"].

(** [any(kw in content.upper() for kw in indicators)]. *)
Definition any_in (indicators : list str) (content : str) : bool :=
  existsb (fun kw => Str.contains kw (Str.upper content)) indicators.

(** The five hundred characters after a table header. *)
Definition window (text : str) (table_header : Match) : str :=
  Str.slice (m_end table_header) (m_end table_header + 500) text.

Definition WITHDRAW_PAGE_END : regex := re_compile "continued\s*\n|§\s*PAGE".

Definition DEPOSIT_PAGE_END : regex := re_compile "Important:|§\s*PAGE".

(** [start] and [end] of the withdrawals on a page, as the extractor sets
    them before it looks for an end that is still [None]. *)
Definition withdrawals_start (text : str) (markers : gmap string nat)
  : option nat * option nat :=
  match markers !! "withdraw_table" with
  | Some withdraw_table => (Some withdraw_table, None)
  | None =>
      if is_continuation text then
        match markers !! "total_withdraw" with
        | Some total_withdraw =>
            match re_search true TABLE_HEADER text with
            | Some table_header => (Some (m_end table_header), Some total_withdraw)
            | None => (None, None)
            end
        | None =>
            if negb (has_key "deposit_header" markers)
               && negb (has_key "deposit_table" markers) then
              match re_search true TABLE_HEADER text with
              | Some table_header =>
                  let content := window text table_header in
                  let has_deposits := any_in deposit_indicators content in
                  let has_withdrawals := any_in withdrawal_indicators content in
                  if has_withdrawals && negb has_deposits then
                    (Some (m_end table_header), None)
                  else if has_withdrawals && has_deposits then
                    (Some (m_end table_header), None)
                  else (None, None)
              | None => (None, None)
              end
            else (None, None)
        end
      else (None, None)
  end.

(** The withdrawals span [[start, end)] of a page, if it has one. *)
Definition withdrawals_span (text : str) : option (nat * nat) :=
  let markers := _find_section_markers text in
  match withdrawals_start text markers with
  | (None, _) => None
  | (Some start, Some end_) => Some (start, end_)
  | (Some start, None) =>
      Some (start,
            match markers !! "deposit_header" with
            | Some deposit_header => deposit_header
            | None =>
                match markers !! "total_withdraw" with
                | Some total_withdraw => total_withdraw
                | None =>
                    match re_search true WITHDRAW_PAGE_END (Str.from start text) with
                    | Some page_marker => start + m_start page_marker
                    | None => length text
                    end
                end
            end)
  end.

Definition extract_withdrawals_from_page (page : Page) (year : Z)
  : result (list Transaction) :=
  let text := text_of page in
  match withdrawals_span text with
  | None => Ok []
  | Some (start, end_) =>
      _extract_transactions_from_text (Str.slice start end_ text) year WITHDRAWAL
  end.

Definition deposits_start (text : str) (markers : gmap string nat)
  : option nat :=
  match markers !! "deposit_table" with
  | Some deposit_table => Some deposit_table
  | None =>
      if is_continuation text then
        match markers !! "total_withdraw" with
        | Some total_withdraw =>
            match re_search true TABLE_HEADER (Str.from total_withdraw text) with
            | Some table_header => Some (total_withdraw + m_end table_header)
            | None => None
            end
        | None =>
            if negb (has_key "withdraw_header" markers)
               && negb (has_key "withdraw_table" markers) then
              match re_search true TABLE_HEADER text with
              | Some table_header =>
                  let content := window text table_header in
                  if any_in deposit_indicators content then
                    Some (m_end table_header)
                  else None
              | None => None
              end
            else None
        end
      else None
  end.

(** The deposits span [[start, end)] of a page, if it has one. *)
Definition deposits_span (text : str) : option (nat * nat) :=
  let markers := _find_section_markers text in
  match deposits_start text markers with
  | None => None
  | Some start =>
      Some (start,
            match markers !! "total_deposit" with
            | Some total_deposit => total_deposit
            | None =>
                match re_search true DEPOSIT_PAGE_END (Str.from start text) with
                | Some end_marker => start + m_start end_marker
                | None => length text
                end
            end)
  end.

Definition extract_deposits_from_page (page : Page) (year : Z)
  : result (list Transaction) :=
  let text := text_of page in
  match deposits_span text with
  | None => Ok []
  | Some (start, end_) =>
      _extract_transactions_from_text (Str.slice start end_ text) year DEPOSIT
  end.

(** ** [banks/truist/page_classifier.py] *)

(** Indicators that a page contains transaction data. *)
Definition TRANSACTION_INDICATORS : list string :=
  [ "Checks";
    "Other\s*withdrawals";
    "Deposits,?\s*credits";
    "DATE\s+DESCRIPTION\s+AMOUNT";
    "DATE\s+CHECK\s*#\s+AMOUNT" ].

(** Indicators that a page is boilerplate (should be skipped). *)
Definition BOILERPLATE_INDICATORS : list string :=
  [ "Questions,?\s*comments\s*or\s*errors\?";
    "Electronic\s*fund\s*transfers";
    "How\s*to\s*Reconcile\s*Your\s*Account";
    "Billing\s*Rights\s*Summary";
    "Mail-in\s*deposits" ].

Definition date_amount_pattern : regex :=
  re_compile "\d{2}/\d{2}\s+.*\d+\.\d{2}".

(** [re.search(pattern, text, re.IGNORECASE)] is a match. *)
Definition found (text : str) (pattern : string) : bool :=
  bool_decide (is_Some (re_search true (re_compile pattern) text)).

Definition is_transaction_page (page : Page) : bool :=
  let text := text_of page in
  (* boilerplate indicators first: they take precedence *)
  if existsb (found text) BOILERPLATE_INDICATORS then false
  (* the page is mostly empty *)
  else if (length (Str.strip text) <? 100)%nat then false
  else if existsb (found text) TRANSACTION_INDICATORS then true
  else
    let matches := re_finditer false date_amount_pattern text in
    (3 <=? length matches)%nat.

(** The dictionary from page number to its class, in the order of the
    pages. *)
Definition classify_pages (pdf : PDF) : list (nat * bool) :=
  imap (fun i page => (i, is_transaction_page page)) (pages pdf).

(** ** [banks/truist/parser.py] *)

Module TruistParser.

Definition bank_name : str := txt "Truist".

(** The fields of a parser object; [pdf] is [None] until the object is
    entered as a context manager. *)
Record self : Set := mkself {
  pdf : option PDF;
  _year : option Z;
  _account_number : option str
}.

Definition init : self := mkself None None None.

Definition enter (document : PDF) (s : self) : self :=
  mkself (Some document) (_year s) (_account_number s).

Definition can_parse (pdf : PDF) : bool :=
  match pages pdf with
  | [] => false
  | first :: _ =>
      let first_page_text := text_of first in
      Str.contains (txt "truist") (Str.lower first_page_text)
  end.

Definition STATEMENT_DATE : regex := re_compile "For\s*(\d{2}/\d{2}/(\d{4}|\d{2}))".

Definition ANY_YEAR : regex := re_compile "20\d{2}".

Definition ACCOUNT : regex := re_compile "CHECKING\s*(\d+)".

(** The statement year and the account number, from the first page;
    [today_year] is [date.today().year]. *)
Definition _extract_metadata (today_year : Z) (s : self) : result self :=
  match pdf s with
  | None => Ok s
  | Some document =>
      match pages document with
      | [] => Ok s
      | first :: _ =>
          let text := text_of first in
          year <-
            match re_search false STATEMENT_DATE text with
            | Some date_match =>
                year_str <- the_str (group text date_match 2) ;;
                if (length year_str =? 2)%nat then
                  n <- int year_str ;; Ok (2000 + n)%Z
                else int year_str
            | None =>
                match re_search false ANY_YEAR text with
                | Some year_match => int (group0 text year_match)
                | None => Ok today_year
                end
            end ;;
          let account :=
            match re_search false ACCOUNT text with
            | Some account_match => group text account_match 1
            | None => _account_number s
            end in
          Ok (mkself (pdf s) (Some year) account)
      end
  end.

Definition PERIOD_START : regex :=
  re_compile "previous\s*balance\s*as\s*of\s*(\d{2}/\d{2}/\d{4})".

Definition PERIOD_END : regex :=
  re_compile "new\s*balance\s*as\s*of\s*(\d{2}/\d{2}/\d{4})".

(** [parts[i]]. *)
Definition item (parts : list str) (i : nat) : result str :=
  match parts !! i with
  | Some p => Ok p
  | None => Raise IndexError
  end.

(** [date(int(parts[2]), int(parts[0]), int(parts[1]))] for the parts of the
    date an anchor was followed by. *)
Definition anchored_date (text : str) (m : Match) : result datetime.date :=
  whole <- the_str (group text m 1) ;;
  let parts := Str.split "/" whole in
  p2 <- item parts 2 ;;
  y <- int p2 ;;
  p0 <- item parts 0 ;;
  mo <- int p0 ;;
  p1 <- item parts 1 ;;
  d <- int p1 ;;
  datetime.new y mo d.

Definition _extract_statement_period (s : self)
  : result (option datetime.date * option datetime.date) :=
  match pdf s with
  | None => Ok (None, None)
  | Some document =>
      match pages document, _year s with
      | [], _ | _, None | _, Some 0%Z => Ok (None, None)
      | first :: _, Some _ =>
          let text := text_of first in
          let start_match := re_search true PERIOD_START text in
          let end_match := re_search true PERIOD_END text in
          start_date <-
            match start_match with
            | Some m => d <- anchored_date text m ;; Ok (Some d)
            | None => Ok None
            end ;;
          end_date <-
            match end_match with
            | Some m => d <- anchored_date text m ;; Ok (Some d)
            | None => Ok None
            end ;;
          Ok (start_date, end_date)
      end
  end.

(** The sort key [(t.date, t.transaction_type.value)]. *)
Definition sort_key (t : Transaction) : datetime.date * str :=
  (date t, value (transaction_type t)).

(** [a < b] on keys, as tuples compare: by the first component that
    differs. *)
Definition key_ltb (a b : datetime.date * str) : bool :=
  if negb (datetime.eqb a.1 b.1) then datetime.ltb a.1 b.1
  else str_ltb a.2 b.2.

Definition tx_ltb (a b : Transaction) : bool :=
  key_ltb (sort_key a) (sort_key b).

(** One turn of the loop over the classified pages.  [_year] is set by
    [_extract_metadata] whenever the document has a page. *)
Definition page_step (document : PDF) (s : self) (entry : nat * bool)
    (all_transactions : list Transaction) : result (list Transaction) :=
  let '(page_num, is_transaction_page) := entry in
  if negb is_transaction_page then Ok all_transactions
  else
    page <- match pages document !! page_num with
            | Some page => Ok page
            | None => Raise IndexError
            end ;;
    year <- match _year s with
            | Some year => Ok year
            | None => Raise TypeError
            end ;;
    checks <- extract_checks_from_page page year ;;
    withdrawals <- extract_withdrawals_from_page page year ;;
    deposits <- extract_deposits_from_page page year ;;
    Ok (all_transactions ++ checks ++ withdrawals ++ deposits).

Definition parse (today_year : Z) (s : self) : result BankStatement :=
  match pdf s with
  | None => Raise RuntimeError
  | Some document =>
      s <- _extract_metadata today_year s ;;
      period <- _extract_statement_period s ;;
      let '(start_date, end_date) := period in
      let page_classifications := classify_pages document in
      all_transactions <-
        for_each page_classifications (page_step document s) [] ;;
      let all_transactions := sort tx_ltb all_transactions in
      Ok (mkBankStatement bank_name (_account_number s) start_date end_date
            all_transactions)
  end.

End TruistParser.

(** ** [banks/base.py] and [banks/detector.py] *)

(** A parser class: what the detector and the orchestrator use of it.
    [run] is [with parser_class(pdf_path) as parser: return parser.parse()]. *)
Record BankParser : Type := mkBankParser {
  parser_name : str;
  parser_can_parse : PDF -> bool;
  parser_run : Z -> PDF -> result BankStatement
}.

Definition Truist : BankParser :=
  mkBankParser TruistParser.bank_name TruistParser.can_parse
    (fun today_year document =>
       TruistParser.parse today_year
         (TruistParser.enter document TruistParser.init)).

(** Registry of available bank parsers. *)
Definition BANK_PARSERS : list BankParser := [Truist].

Definition detect_bank (document : PDF) : option BankParser :=
  List.find (fun parser_class => parser_can_parse parser_class document)
    BANK_PARSERS.

(** ** [extractor.py] *)

(** [file] is what [pdf_path] names: nothing, or a document. *)
Definition extract_statement (today_year : Z) (file : option PDF)
  : result BankStatement :=
  match file with
  | None => Raise FileNotFoundError
  | Some document =>
      match detect_bank document with
      | None => Raise ValueError
      | Some parser_class => parser_run parser_class today_year document
      end
  end.

(** * Specification-level notions *)

(** ** What a pattern means *)

(** [denote ic r w]: the string [w], as a whole, is one of the strings the
    anchor-free pattern [r] stands for.  This is the meaning of the pattern
    as a set of strings, with no reference to how [run] searches. *)
Fixpoint denote (ic : bool) (r : regex) (w : str) : bool :=
  match r with
  | REps => bool_decide (w = [])
  | RChr cc =>
      match w with
      | [c] => cmatch ic cc c
      | _ => false
      end
  | RSeq r1 r2 =>
      existsb
        (fun n => if denote ic r1 (take n w) then denote ic r2 (drop n w)
                  else false)
        (seq 0 (S (length w)))
  | RAlt r1 r2 => denote ic r1 w || denote ic r2 w
  | RRep cc lo hi _ =>
      (lo <=? length w)%nat
      && match hi with
         | Some h => (length w <=? h)%nat
         | None => true
         end
      && forallb (cmatch ic cc) w
  | RGroup _ r => denote ic r w
  | RBol | REol | RFail => false
  end.

(** [text] contains a string that [pattern] stands for, case ignored. *)
Definition appears (pattern : string) (text : str) : Prop :=
  exists pre w post,
    text = pre ++ w ++ post /\ denote true (re_compile pattern) w = true.

(** The groups every match of a pattern captures. *)
Fixpoint binds (r : regex) : list nat :=
  match r with
  | RGroup i r => i :: binds r
  | RSeq r1 r2 => binds r1 ++ binds r2
  | RAlt r1 r2 => filter (fun i => i ∈ binds r2) (binds r1)
  | _ => []
  end.

(** The pattern has no anchor. *)
Fixpoint anchor_free (r : regex) : bool :=
  match r with
  | RBol | REol => false
  | RSeq r1 r2 | RAlt r1 r2 => anchor_free r1 && anchor_free r2
  | RGroup _ r => anchor_free r
  | _ => true
  end.

(** The groups of a pattern, each with the pattern in its parentheses. *)
Fixpoint group_bodies (r : regex) : list (nat * regex) :=
  match r with
  | RGroup i r => (i, r) :: group_bodies r
  | RSeq r1 r2 | RAlt r1 r2 => group_bodies r1 ++ group_bodies r2
  | _ => []
  end.

(** Group [i] has a capture. *)
Definition bound (i : nat) (caps : captures) : Prop := i ∈ caps.*1.

(** ** Records and their order *)

(** What one line of a block contributes when it is parsed on its own. *)
Definition line_records (year : Z) (transaction_type : TransactionType)
    (line : str) : list Transaction :=
  match line_step year transaction_type line [] with
  | Ok records => records
  | Raise _ => []
  end.

(** A record is well formed: it carries a check number exactly when it is a
    check, and its amount is not negative. *)
Definition well_formed (t : Transaction) : Prop :=
  (is_Some (check_number t) <-> transaction_type t = CHECK)
  /\ decimal.nonneg (amount t) = true.

(** The place of a category in the declared order of the enumeration. *)
Definition declared_rank (t : TransactionType) : nat :=
  match t with
  | CHECK => 0
  | WITHDRAWAL => 1
  | DEPOSIT => 2
  end.

(** The place of a category in the order of the values, as strings. *)
Definition value_rank (t : TransactionType) : nat :=
  match t with
  | CHECK => 0
  | DEPOSIT => 1
  | WITHDRAWAL => 2
  end.

(** [a] may stand right before [b] in a list sorted by date, with [rank]
    breaking the ties. *)
Definition in_order (rank : TransactionType -> nat) (a b : Transaction) : Prop :=
  datetime.ltb (date a) (date b) = true
  \/ (date a = date b
      /\ rank (transaction_type a) <= rank (transaction_type b)).

(** A signless decimal with exactly two fractional digits: digits, a point,
    two digits. *)
Definition two_decimals (s : str) : bool :=
  match rev s with
  | b :: a :: dot :: int_part =>
      Char.is_digit b && Char.is_digit a && Char.eqb dot "."
      && Str.all_digits int_part && negb (Str.eqb int_part [])
  | _ => false
  end.

(** The number such a string writes: its digits, in hundredths. *)
Definition two_decimals_value (s : str) : decimal.Decimal :=
  decimal.Finite false (Str.digits_val (Str.remove "." s)) (-2).


(** * Properties of the matcher *)

Section MatcherFacts.

Context {R : Type}.
Variable ic : bool.

Implicit Types (r : regex) (k : cont (R := R)) (s w : str) (caps : captures).

(** A quantified class only moves on in the text: it ends in a call of its
    continuation, with the captures it was given. *)
Lemma rep_inv cc greedy s : forall lo hi pos caps k res,
  rep ic cc lo hi greedy pos s caps k = Some res ->
  exists pos' s', k pos' s' caps = Some res.
Proof.
  induction s as [|c s IH]; intros lo hi pos caps k res H.
  - destruct lo; simpl in H; [|discriminate].
    destruct greedy; simpl in H; eauto.
    destruct (k pos [] caps) eqn:E; simpl in H; [|discriminate].
    inversion H; subst; eauto.
  - simpl in H.
    destruct lo as [|lo].
    + destruct greedy.
      * destruct (cmatch ic cc c && negb (bool_decide (hi = Some 0))); simpl in H.
        -- destruct (rep ic cc 0 (pred <$> hi) true (S pos) s caps k) eqn:E;
             simpl in H; [inversion H; subst; eauto | eauto].
        -- eauto.
      * destruct (k pos (c :: s) caps) eqn:E; simpl in H.
        -- inversion H; subst; eauto.
        -- destruct (cmatch ic cc c && negb (bool_decide (hi = Some 0)));
             [eauto | discriminate].
    + destruct (cmatch ic cc c && negb (bool_decide (hi = Some 0)));
        [eauto | discriminate].
Qed.

(** A successful run ends in a call of its continuation, and by then every
    group of [binds r] has a capture and no capture was lost. *)
Lemma run_inv r : forall pos s caps k res,
  run ic r pos s caps k = Some res ->
  exists pos' s' caps',
    k pos' s' caps' = Some res
    /\ forall i, i ∈ binds r \/ bound i caps -> bound i caps'.
Proof.
  induction r as [|cc|r1 IH1 r2 IH2|r1 IH1 r2 IH2|cc lo hi g|i r IH| | |];
    intros pos s caps k res H; simpl in H.
  - exists pos, s, caps. split; [done|]. intros i [Hi|Hi]; [|done].
    simpl in Hi. set_solver.
  - destruct s as [|c s]; [discriminate|].
    destruct (cmatch ic cc c); [|discriminate].
    exists (S pos), s, caps. split; [done|]. intros i [Hi|Hi]; [|done].
    simpl in Hi. set_solver.
  - apply IH1 in H as (p1 & s1 & c1 & H & B1).
    apply IH2 in H as (p2 & s2 & c2 & H & B2).
    exists p2, s2, c2. split; [done|]. intros i [Hi|Hi].
    + simpl in Hi. apply elem_of_app in Hi as [Hi|Hi]; auto.
    + auto.
  - destruct (run ic r1 pos s caps k) eqn:E; simpl in H.
    + inversion H; subst. apply IH1 in E as (p1 & s1 & c1 & E & B1).
      exists p1, s1, c1. split; [done|]. intros i [Hi|Hi]; [|auto].
      simpl in Hi. apply list_elem_of_filter in Hi as [_ Hi]. auto.
    + apply IH2 in H as (p2 & s2 & c2 & H & B2).
      exists p2, s2, c2. split; [done|]. intros i [Hi|Hi]; [|auto].
      simpl in Hi. apply list_elem_of_filter in Hi as [Hi _]. auto.
  - apply rep_inv in H as (p' & s' & H).
    exists p', s', caps. split; [done|]. intros i [Hi|Hi]; [|done].
    simpl in Hi. set_solver.
  - apply IH in H as (p1 & s1 & c1 & H & B1).
    exists p1, s1, ((i, (pos, p1)) :: c1). split; [done|].
    unfold bound in *. intros j [Hj|Hj]; simpl.
    + simpl in Hj. apply elem_of_cons in Hj as [->|Hj]; [left|right; auto].
    + right; auto.
  - case_bool_decide; [|discriminate].
    exists pos, s, caps. split; [done|]. intros i [Hi|Hi]; [|done].
    simpl in Hi. set_solver.
  - exists pos, s, caps. split.
    + destruct s as [|c [|]]; try discriminate; [done|].
      destruct (Char.eqb c NL); [done|discriminate].
    + intros i [Hi|Hi]; [|done]. simpl in Hi. set_solver.
  - discriminate.
Qed.

(** A quantified class gets through every string of the class that is long
    enough, whatever it prefers, when its continuation accepts there. *)
Lemma rep_complete cc greedy w : forall lo hi pos rest caps k,
  (lo <= length w)%nat ->
  match hi with Some h => (length w <= h)%nat | None => True end ->
  forallb (cmatch ic cc) w = true ->
  is_Some (k (pos + length w) rest caps) ->
  is_Some (rep ic cc lo hi greedy pos (w ++ rest) caps k).
Proof.
  induction w as [|c w IH]; intros lo hi pos rest caps k Hlo Hhi Hall Hk.
  - simpl in *. replace (pos + 0) with pos in Hk by lia.
    assert (lo = 0) as -> by lia.
    destruct rest; simpl; destruct greedy; simpl; try done.
    + destruct (k pos [] caps); simpl; [eauto|by destruct Hk].
    + destruct (cmatch ic cc a && negb (bool_decide (hi = Some 0))); simpl;
        [|done].
      destruct (rep ic cc 0 (pred <$> hi) true (S pos) rest caps k); simpl;
        eauto.
    + destruct (k pos (a :: rest) caps); simpl; [eauto|by destruct Hk].
  - simpl in Hall. apply andb_prop in Hall as [Hc Hall].
    assert (Hhi0 : bool_decide (hi = Some 0) = false).
    { apply bool_decide_eq_false. intros ->. simpl in Hhi. lia. }
    assert (Hrec : forall lo', (lo' <= length w)%nat ->
      is_Some (rep ic cc lo' (pred <$> hi) greedy (S pos) (w ++ rest) caps k)).
    { intros lo' Hlo'. apply IH; [done| |done|].
      - destruct hi as [h|]; simpl in *; [lia|done].
      - replace (S pos + length w) with (pos + length (c :: w)) by (simpl; lia).
        done. }
    simpl. rewrite Hc, Hhi0. simpl.
    destruct lo as [|lo]; cbn [Nat.pred].
    + destruct greedy.
      * destruct (Hrec 0 ltac:(lia)) as [x ->]. simpl. eauto.
      * destruct (k pos (c :: w ++ rest) caps); simpl; [eauto|].
        apply Hrec. lia.
    + apply Hrec. simpl in Hlo. lia.
Qed.

(** The matcher is complete for the meaning of a pattern: if [w] is one of
    its strings and the continuation accepts after [w], the run succeeds. *)
Lemma run_complete r : forall w pos rest caps k,
  denote ic r w = true ->
  (forall caps', is_Some (k (pos + length w) rest caps')) ->
  is_Some (run ic r pos (w ++ rest) caps k).
Proof.
  induction r as [|cc|r1 IH1 r2 IH2|r1 IH1 r2 IH2|cc lo hi g|i r IH| | |];
    intros w pos rest caps k Hw Hk; cbn [denote] in Hw; try discriminate.
  - apply bool_decide_eq_true in Hw as ->. simpl in *.
    replace (pos + 0) with pos in Hk by lia. apply Hk.
  - destruct w as [|c [|]]; try discriminate. simpl. rewrite Hw.
    replace (S pos) with (pos + length [c]) by (simpl; lia). apply Hk.
  - apply existsb_exists in Hw as (n & _ & Hn).
    destruct (denote ic r1 (take n w)) eqn:H1; [|discriminate].
    rename Hn into H2.
    rewrite <- (take_drop n w), <- app_assoc. simpl.
    apply IH1; [done|]. intros caps'. apply IH2; [done|].
    intros caps''.
    replace (pos + length (take n w) + length (drop n w))
      with (pos + length w); [apply Hk|].
    rewrite <- (take_drop n w) at 1. rewrite length_app. lia.
  - simpl. apply orb_prop in Hw as [H1|H2].
    + destruct (IH1 w pos rest caps k H1 Hk) as [x ->]. simpl. eauto.
    + destruct (run ic r1 pos (w ++ rest) caps k); simpl; [eauto|].
      by apply IH2.
  - apply andb_prop in Hw as [Hw Hall]. apply andb_prop in Hw as [Hlo Hhi].
    simpl. apply rep_complete; [by apply Nat.leb_le| |done|apply Hk].
    destruct hi; [by apply Nat.leb_le|done].
  - simpl. apply IH; [done|]. intros caps'. apply Hk.
Qed.

End MatcherFacts.

Lemma search_from_unfold ic r pos s :
  search_from ic r pos s =
  match match_at ic r pos s with
  | Some m => Some m
  | None =>
      match s with
      | [] => None
      | _ :: s' => search_from ic r (S pos) s'
      end
  end.
Proof. by destruct s. Qed.

(** [re.search] finds a match in every text that contains one of the
    strings of the pattern. *)
Lemma search_complete ic r pre w post :
  denote ic r w = true -> is_Some (re_search ic r (pre ++ w ++ post)).
Proof.
  intros Hw. unfold re_search. generalize 0 as pos.
  induction pre as [|c pre IH]; intros pos; rewrite search_from_unfold.
  - simpl. unfold match_at.
    destruct (run_complete (R := Match) ic r w pos post [] (finish pos) Hw)
      as [m ->]; [by eexists|eauto].
  - destruct (match_at ic r pos ((c :: pre) ++ w ++ post)); [eauto|].
    simpl. apply IH.
Qed.

(** Every group of [binds r] has a capture in a match of [r]. *)
Lemma match_at_binds ic r pos s m i :
  match_at ic r pos s = Some m -> i ∈ binds r -> bound i (m_caps m).
Proof.
  unfold match_at. intros H Hi.
  apply run_inv in H as (pos' & s' & caps' & H & B).
  unfold finish in H. inversion H; subst; simpl. auto.
Qed.

Lemma group_bound text m i :
  bound i (m_caps m) -> is_Some (group text m i).
Proof.
  unfold bound, group. intros H.
  apply list_elem_of_fmap in H as ([j [a b]] & -> & H).
  destruct (list_find (λ c, c.1 = (j, (a, b)).1) (m_caps m))
    as [[n [j' [a' b']]]|] eqn:E; [eauto|].
  apply list_find_None in E. rewrite Forall_forall in E.
  by destruct (E _ H).
Qed.

Lemma search_from_match ic r : forall s pos m,
  search_from ic r pos s = Some m ->
  exists pos' s', match_at ic r pos' s' = Some m.
Proof.
  induction s as [|c s IH]; intros pos m H; rewrite search_from_unfold in H.
  - destruct (match_at ic r pos []) eqn:E; [|done]. inversion H; subst; eauto.
  - destruct (match_at ic r pos (c :: s)) eqn:E.
    + inversion H; subst; eauto.
    + eauto.
Qed.

Lemma finditer_from_match ic r : forall s pos skip,
  Forall (fun m => exists pos' s', match_at ic r pos' s' = Some m)
    (finditer_from ic r pos s skip).
Proof.
  induction s as [|c s IH]; intros pos skip.
  - destruct skip; simpl; [|done].
    destruct (match_at ic r pos []) eqn:E; [|done].
    constructor; [eauto|done].
  - destruct skip; simpl; [|apply IH].
    destruct (match_at ic r pos (c :: s)) eqn:E; [|apply IH].
    constructor; [eauto|apply IH].
Qed.

(** The three groups of a match are there when the pattern binds them. *)
Lemma groups3_ok ic r pos s m text :
  match_at ic r pos s = Some m ->
  1 ∈ binds r -> 2 ∈ binds r -> 3 ∈ binds r ->
  exists a b c, groups3 text m = Ok (a, b, c).
Proof.
  intros H H1 H2 H3. unfold groups3.
  destruct (group_bound text m 1 (match_at_binds _ _ _ _ _ _ H H1)) as [a ->].
  destruct (group_bound text m 2 (match_at_binds _ _ _ _ _ _ H H2)) as [b ->].
  destruct (group_bound text m 3 (match_at_binds _ _ _ _ _ _ H H3)) as [c ->].
  simpl. eauto.
Qed.

(** * Soundness of the matcher *)

Section MatcherSound.

Variable text : str.
Variable ic : bool.
Variable top : regex.

(** Every capture is a group of [top] with a string of its body. *)
Definition caps_good (caps : captures) : Prop :=
  forall i a b, (i, (a, b)) ∈ caps ->
    exists body, (i, body) ∈ group_bodies top
                 /\ denote ic body (Str.slice a b text) = true.

Lemma rep_sound {R} cc greedy s : forall lo hi pos caps (k : cont (R := R)) res,
  rep ic cc lo hi greedy pos s caps k = Some res ->
  exists w s',
    s = w ++ s' /\ lo <= length w
    /\ match hi with Some h => length w <= h | None => True end
    /\ forallb (cmatch ic cc) w = true
    /\ k (pos + length w) s' caps = Some res.
Proof.
  assert (Hstop : forall pos s0 caps (k : cont (R := R)) res hi,
            k pos s0 caps = Some res ->
            exists w s', s0 = w ++ s' /\ 0 <= length w
              /\ match hi with Some h => length w <= h | None => True end
              /\ forallb (cmatch ic cc) w = true
              /\ k (pos + length w) s' caps = Some res).
  { intros pos s0 caps k res hi H. exists [], s0. simpl.
    replace (pos + 0) with pos by lia. split_and!; try done; try lia.
    destruct hi; [lia|done]. }
  induction s as [|c s IH]; intros lo hi pos caps k res H.
  - destruct lo; simpl in H; [|discriminate].
    destruct greedy; simpl in H; [by apply Hstop|].
    destruct (k pos [] caps) eqn:E; simpl in H; [|discriminate].
    inversion H; subst. by apply Hstop.
  - assert (Hmore : forall lo',
      cmatch ic cc c && negb (bool_decide (hi = Some 0)) = true ->
      rep ic cc lo' (pred <$> hi) greedy (S pos) s caps k = Some res ->
      exists w s', c :: s = w ++ s' /\ S lo' <= length w
        /\ match hi with Some h => length w <= h | None => True end
        /\ forallb (cmatch ic cc) w = true
        /\ k (pos + length w) s' caps = Some res).
    { intros lo' Hc Hr. apply andb_prop in Hc as [Hc Hhi].
      apply negb_true_iff, bool_decide_eq_false in Hhi.
      apply IH in Hr as (w & s' & -> & Hlo & Hh & Hall & Hk).
      exists (c :: w), s'. simpl. rewrite Hc, Hall.
      replace (pos + S (length w)) with (S pos + length w) by lia.
      split_and!; try done; try lia.
      destruct hi as [[|h]|]; simpl in *; try done; lia. }
    simpl in H. destruct lo as [|lo]; cbn [Nat.pred] in H.
    + destruct greedy.
      * destruct (cmatch ic cc c && negb (bool_decide (hi = Some 0))) eqn:Ec;
          simpl in H; [|by apply Hstop].
        destruct (rep ic cc 0 (pred <$> hi) true (S pos) s caps k) eqn:E;
          simpl in H; [|by apply Hstop].
        inversion H; subst.
        destruct (Hmore 0 eq_refl E) as (w & s' & ? & ? & ? & ? & ?).
        exists w, s'. split_and!; try done; lia.
      * destruct (k pos (c :: s) caps) eqn:E; simpl in H.
        -- inversion H; subst. by apply Hstop.
        -- destruct (cmatch ic cc c && negb (bool_decide (hi = Some 0))) eqn:Ec;
             [|discriminate].
           destruct (Hmore 0 eq_refl H) as (w & s' & ? & ? & ? & ? & ?).
           exists w, s'. split_and!; try done; lia.
    + destruct (cmatch ic cc c && negb (bool_decide (hi = Some 0))) eqn:Ec;
        [|discriminate].
      by apply Hmore.
Qed.

Lemma slice_middle (pre w post : str) :
  Str.slice (length pre) (length pre + length w) (pre ++ w ++ post) = w.
Proof.
  unfold Str.slice. rewrite drop_app_length.
  replace (length pre + length w - length pre) with (length w) by lia.
  by rewrite take_app_length.
Qed.

(** A successful run read a string of the pattern, and every capture it
    made is a string of the body of its group. *)
Lemma run_sound {R} r :
  anchor_free r = true ->
  (forall x, x ∈ group_bodies r -> x ∈ group_bodies top) ->
  forall pre s caps (k : cont (R := R)) res,
    text = pre ++ s ->
    caps_good caps ->
    run ic r (length pre) s caps k = Some res ->
    exists w s' caps',
      s = w ++ s' /\ denote ic r w = true /\ caps_good caps'
      /\ k (length pre + length w) s' caps' = Some res.
Proof.
  induction r as [|cc|r1 IH1 r2 IH2|r1 IH1 r2 IH2|cc lo hi g|i r IH| | |];
    intros Haf Hsub pre s caps k res Htext Hcaps H; simpl in H;
    try discriminate.
  - exists [], s, caps. simpl. replace (length pre + 0) with (length pre) by lia.
    done.
  - destruct s as [|c s]; [discriminate|].
    destruct (cmatch ic cc c) eqn:Ec; [|discriminate].
    exists [c], s, caps. simpl.
    replace (length pre + 1) with (S (length pre)) by lia. done.
  - simpl in Haf. apply andb_prop in Haf as [Haf1 Haf2].
    apply IH1 in H as (w1 & s1 & c1 & -> & Hd1 & Hc1 & H); try done.
    2:{ intros x Hx. apply Hsub. simpl. apply elem_of_app. by left. }
    replace (length pre + length w1) with (length (pre ++ w1)) in H
      by (rewrite length_app; lia).
    apply IH2 in H as (w2 & s2 & c2 & -> & Hd2 & Hc2 & H); try done.
    2:{ intros x Hx. apply Hsub. simpl. apply elem_of_app. by right. }
    2:{ by rewrite <- app_assoc. }
    exists (w1 ++ w2), s2, c2. split_and!; try done.
    + by rewrite <- app_assoc.
    + cbn [denote]. apply existsb_exists. exists (length w1). split.
      * apply in_seq. rewrite length_app. lia.
      * rewrite take_app_length, drop_app_length. by rewrite Hd1.
    + rewrite length_app in H |- *.
      by replace (length pre + (length w1 + length w2))
        with (length pre + length w1 + length w2) by lia.
  - simpl in Haf. apply andb_prop in Haf as [Haf1 Haf2].
    destruct (run ic r1 (length pre) s caps k) eqn:E; simpl in H.
    + inversion H; subst.
      apply IH1 in E as (w & s' & c' & -> & Hd & Hc & E); try done.
      2:{ intros x Hx. apply Hsub. simpl. apply elem_of_app. by left. }
      exists w, s', c'. split_and!; try done. simpl. by rewrite Hd.
    + apply IH2 in H as (w & s' & c' & -> & Hd & Hc & H); try done.
      2:{ intros x Hx. apply Hsub. simpl. apply elem_of_app. by right. }
      exists w, s', c'. split_and!; try done. simpl. rewrite Hd.
      by rewrite orb_true_r.
  - apply rep_sound in H as (w & s' & -> & Hlo & Hhi & Hall & H).
    exists w, s', caps. split_and!; try done. simpl.
    rewrite Hall. apply Nat.leb_le in Hlo. rewrite Hlo. simpl.
    destruct hi; [|done]. apply Nat.leb_le in Hhi. by rewrite Hhi.
  - simpl in Haf.
    apply IH in H as (w & s' & c' & -> & Hd & Hc & H); try done.
    2:{ intros x Hx. apply Hsub. simpl. by right. }
    exists w, s', ((i, (length pre, length pre + length w)) :: c').
    split_and!; try done.
    intros j a b Hj. apply elem_of_cons in Hj as [Hj|Hj]; [|by apply Hc].
    inversion Hj; subst. exists r. split.
    + apply Hsub. simpl. by left.
    + rewrite Htext. by rewrite slice_middle.
Qed.

End MatcherSound.

Lemma match_at_sound text ic r pre s m :
  text = pre ++ s ->
  anchor_free r = true ->
  match_at ic r (length pre) s = Some m ->
  caps_good text ic r (m_caps m)
  /\ denote ic r (group0 text m) = true.
Proof.
  intros Htext Haf H. unfold match_at in H.
  apply (run_sound text ic r r Haf (fun x Hx => Hx) pre s [] _ _ Htext)
    in H as (w & s' & caps' & -> & Hd & Hc & H).
  - unfold finish in H. inversion H; subst m. simpl. split; [done|].
    unfold group0. simpl. by rewrite Htext, slice_middle.
  - intros i a b Hi. by apply elem_of_nil in Hi.
Qed.

Lemma search_from_sound text ic r : forall s pre m,
  text = pre ++ s ->
  anchor_free r = true ->
  search_from ic r (length pre) s = Some m ->
  caps_good text ic r (m_caps m)
  /\ denote ic r (group0 text m) = true.
Proof.
  induction s as [|c s IH]; intros pre m Htext Haf H;
    rewrite search_from_unfold in H.
  - destruct (match_at ic r (length pre) []) eqn:E; [|done].
    inversion H; subst. by eapply match_at_sound.
  - destruct (match_at ic r (length pre) (c :: s)) eqn:E.
    + inversion H; subst. by eapply match_at_sound.
    + apply (IH (pre ++ [c])); [by rewrite <- app_assoc|done|].
      rewrite length_app. simpl.
      by replace (length pre + 1) with (S (length pre)) by lia.
Qed.

(** What [re.search] finds is a string of the pattern, and its groups are
    strings of their bodies. *)
Lemma search_sound text ic r m :
  anchor_free r = true ->
  re_search ic r text = Some m ->
  caps_good text ic r (m_caps m)
  /\ denote ic r (group0 text m) = true.
Proof. intros Haf H. by apply (search_from_sound text ic r text [] m). Qed.

Lemma group_sound text ic r m i g :
  caps_good text ic r (m_caps m) ->
  group text m i = Some g ->
  exists body, (i, body) ∈ group_bodies r /\ denote ic body g = true.
Proof.
  unfold group. intros Hc H.
  destruct (list_find (λ c, c.1 = i) (m_caps m)) as [[n [j [a b]]]|] eqn:E;
    [|done].
  inversion H; subst g.
  apply list_find_Some in E as (Hn & Hj & _). simpl in Hj. subst j.
  apply (Hc i a b). by eapply list_elem_of_lookup_2.
Qed.

(** ** The captures of a pattern with anchors

    The groups of the line pattern stand between [^] and [$]: what holds of
    the captures does not depend on the anchors around the groups. *)

(** The bodies of the groups of [r] have no anchor. *)
Fixpoint groups_anchor_free (r : regex) : bool :=
  match r with
  | RGroup _ r => anchor_free r
  | RSeq r1 r2 | RAlt r1 r2 => groups_anchor_free r1 && groups_anchor_free r2
  | _ => true
  end.

Section MatcherCaptures.

Variable text : str.
Variable ic : bool.
Variable top : regex.

Lemma run_caps {R} r :
  groups_anchor_free r = true ->
  (forall x, x ∈ group_bodies r -> x ∈ group_bodies top) ->
  forall pre s caps (k : cont (R := R)) res,
    text = pre ++ s ->
    caps_good text ic top caps ->
    run ic r (length pre) s caps k = Some res ->
    exists w s' caps',
      s = w ++ s' /\ caps_good text ic top caps'
      /\ k (length pre + length w) s' caps' = Some res.
Proof.
  assert (Hnone : forall (pre s : str) caps (k : cont (R := R)) res,
            caps_good text ic top caps ->
            k (length pre) s caps = Some res ->
            exists w s' caps',
              s = w ++ s' /\ caps_good text ic top caps'
              /\ k (length pre + length w) s' caps' = Some res).
  { intros pre s caps k res Hcaps H. exists [], s, caps. simpl.
    by replace (length pre + 0) with (length pre) by lia. }
  induction r as [|cc|r1 IH1 r2 IH2|r1 IH1 r2 IH2|cc lo hi g|i r IH| | |];
    intros Haf Hsub pre s caps k res Htext Hcaps H; simpl in H;
    try discriminate.
  - by apply (Hnone pre s caps).
  - destruct s as [|c s]; [discriminate|].
    destruct (cmatch ic cc c) eqn:Ec; [|discriminate].
    exists [c], s, caps. simpl.
    by replace (length pre + 1) with (S (length pre)) by lia.
  - simpl in Haf. apply andb_prop in Haf as [Haf1 Haf2].
    apply IH1 in H as (w1 & s1 & c1 & -> & Hc1 & H); try done.
    2:{ intros x Hx. apply Hsub. simpl. apply elem_of_app. by left. }
    replace (length pre + length w1) with (length (pre ++ w1)) in H
      by (rewrite length_app; lia).
    apply IH2 in H as (w2 & s2 & c2 & -> & Hc2 & H); try done.
    2:{ intros x Hx. apply Hsub. simpl. apply elem_of_app. by right. }
    2:{ by rewrite <- app_assoc. }
    exists (w1 ++ w2), s2, c2. split_and!; try done.
    + by rewrite <- app_assoc.
    + rewrite length_app in H |- *.
      by replace (length pre + (length w1 + length w2))
        with (length pre + length w1 + length w2) by lia.
  - simpl in Haf. apply andb_prop in Haf as [Haf1 Haf2].
    destruct (run ic r1 (length pre) s caps k) eqn:E; simpl in H.
    + inversion H; subst.
      apply IH1 in E; try done.
      intros x Hx. apply Hsub. simpl. apply elem_of_app. by left.
    + apply IH2 in H; try done.
      intros x Hx. apply Hsub. simpl. apply elem_of_app. by right.
  - apply rep_sound in H as (w & s' & -> & _ & _ & _ & H).
    by exists w, s', caps.
  - simpl in Haf.
    apply (run_sound text ic top r Haf) in H
      as (w & s' & c' & -> & Hd & Hc & H); try done.
    2:{ intros x Hx. apply Hsub. simpl. by right. }
    exists w, s', ((i, (length pre, length pre + length w)) :: c').
    split_and!; try done.
    intros j a b Hj. apply elem_of_cons in Hj as [Hj|Hj]; [|by apply Hc].
    inversion Hj; subst. exists r. split.
    + apply Hsub. simpl. by left.
    + by rewrite slice_middle.
  - destruct (bool_decide (length pre = 0)); [|discriminate].
    by apply (Hnone pre s caps).
  - destruct s as [|c [|c' s]]; try discriminate.
    + by apply (Hnone pre [] caps).
    + destruct (Char.eqb c NL); [|discriminate]. by apply (Hnone pre [c] caps).
Qed.

End MatcherCaptures.

(** The captures of a match are strings of the bodies of their groups,
    whatever anchors stand around the groups. *)
Lemma match_at_caps text ic r pre s m :
  text = pre ++ s ->
  groups_anchor_free r = true ->
  match_at ic r (length pre) s = Some m ->
  caps_good text ic r (m_caps m).
Proof.
  intros Htext Haf H. unfold match_at in H.
  apply (run_caps text ic r r Haf (fun x Hx => Hx) pre s [] _ _ Htext)
    in H as (w & s' & caps' & -> & Hc & H).
  - unfold finish in H. by inversion H; subst m.
  - intros i a b Hi. by apply elem_of_nil in Hi.
Qed.

Lemma finditer_from_caps text ic r : forall (s pre : str) skip,
  text = pre ++ s ->
  groups_anchor_free r = true ->
  Forall (fun m => caps_good text ic r (m_caps m))
    (finditer_from ic r (length pre) s skip).
Proof.
  induction s as [|c s IH]; intros pre skip Htext Haf.
  - destruct skip; simpl; [|done].
    destruct (match_at ic r (length pre) []) eqn:E; [|done].
    constructor; [|done]. by eapply match_at_caps.
  - assert (Hrest : forall skip',
      Forall (fun m => caps_good text ic r (m_caps m))
        (finditer_from ic r (S (length pre)) s skip')).
    { intros skip'.
      replace (S (length pre)) with (length (pre ++ [c]))
        by (rewrite length_app; simpl; lia).
      apply IH; [|done]. by rewrite <- app_assoc. }
    destruct skip; simpl; [|apply Hrest].
    destruct (match_at ic r (length pre) (c :: s)) eqn:E; [|apply Hrest].
    constructor; [|apply Hrest]. by eapply match_at_caps.
Qed.

Lemma finditer_caps text ic r :
  groups_anchor_free r = true ->
  Forall (fun m => caps_good text ic r (m_caps m)) (re_finditer ic r text).
Proof. intros Haf. by apply (finditer_from_caps text ic r text [] 0). Qed.

(** * The page classifier *)

Lemma found_appears pattern text :
  appears pattern text -> found text pattern = true.
Proof.
  intros (pre & w & post & -> & Hw). unfold found.
  apply bool_decide_eq_true. by apply search_complete.
Qed.

(** A page with boilerplate on it, three transaction lines and a table
    header notwithstanding. *)
Definition disclosure_page : Page :=
  mkPage (Some (txt "Account activity
DATE DESCRIPTION AMOUNT
03/15 ACH CORP DEBIT PAYROLL  1,210.00
03/16 ZELLE PAYMENT TO VENDOR  85.50
03/17 WIRE REF# 20250317  4,000.00
How to Reconcile Your Account
Questions, comments or errors?
")).

(** A page of less than a hundred characters, with a section header. *)
Definition short_page : Page :=
  mkPage (Some (txt "  Checks
DATE CHECK # AMOUNT
03/02 *1042  250.00
  ")).

(** C7. For every page text: if a boilerplate marker appears anywhere in it
    (case ignored), the page is classified non-transaction, whatever else
    the text contains; and a page whose stripped text is shorter than the
    threshold of 100 characters is classified non-transaction whatever it
    contains. *)
Theorem boilerplate_and_blank_pages_are_skipped :
  (forall page pattern,
     pattern ∈ BOILERPLATE_INDICATORS ->
     appears pattern (text_of page) ->
     is_transaction_page page = false)
  /\ (forall page,
        length (Str.strip (text_of page)) < 100 ->
        is_transaction_page page = false).
Proof.
  split.
  - intros page pattern Hin Happ. unfold is_transaction_page.
    replace (existsb (found (text_of page)) BOILERPLATE_INDICATORS) with true;
      [done|].
    symmetry. apply existsb_exists. exists pattern. split.
    + by apply list_elem_of_In.
    + by apply found_appears.
  - intros page Hlen. unfold is_transaction_page.
    destruct (existsb (found (text_of page)) BOILERPLATE_INDICATORS); [done|].
    apply Nat.ltb_lt in Hlen. by rewrite Hlen.
Qed.

Lemma boilerplate_and_blank_pages_are_skipped_witness :
  is_transaction_page disclosure_page = false
  /\ is_transaction_page short_page = false.
Proof.
  split.
  - apply (proj1 boilerplate_and_blank_pages_are_skipped disclosure_page
             "How\s*to\s*Reconcile\s*Your\s*Account").
    + vm_compute. set_solver.
    + exists (txt "Account activity
DATE DESCRIPTION AMOUNT
03/15 ACH CORP DEBIT PAYROLL  1,210.00
03/16 ZELLE PAYMENT TO VENDOR  85.50
03/17 WIRE REF# 20250317  4,000.00
"), (txt "How to Reconcile Your Account"), (txt "
Questions, comments or errors?
").
      split; vm_compute; reflexivity.
  - apply (proj2 boilerplate_and_blank_pages_are_skipped short_page).
    vm_compute. lia.
Defined.

(** * Which exceptions the conversions raise *)

Lemma int_raises s e : int s = Raise e -> e = ValueError.
Proof.
  unfold int. destruct (split_sign (Str.strip s)) as [neg body].
  destruct (grouped_digits false body); [discriminate|congruence].
Qed.

Lemma date_new_raises y m d e :
  datetime.new y m d = Raise e ->
  if datetime.c_int y && datetime.c_int m && datetime.c_int d
  then e = ValueError else e = OverflowError.
Proof.
  unfold datetime.new.
  destruct (datetime.c_int y && datetime.c_int m && datetime.c_int d); simpl.
  - case_match; [discriminate|congruence].
  - congruence.
Qed.

(** An exception that the handler's classes catch. *)
Lemma catch_caught {A} e classes (handler : result A) :
  e ∈ classes -> catch (Raise e) classes handler = handler.
Proof. intros H. unfold catch. by rewrite bool_decide_eq_true_2. Qed.

(** [OverflowError] is not one of them. *)
Lemma catch_overflow {A} (handler : result A) :
  catch (Raise OverflowError) [ValueError; InvalidOperation] handler
  = Raise OverflowError.
Proof.
  unfold catch. rewrite bool_decide_eq_false_2; [done|].
  intros H. apply list_elem_of_In in H. simpl in H. intuition discriminate.
Qed.

Lemma of_str_raises s e : decimal.of_str s = Raise e -> e = InvalidOperation.
Proof.
  unfold decimal.of_str.
  destruct (split_sign _) as [sign body].
  destruct (span_digits body) as [int_part rest].
  destruct (match rest with
            | [] => ([], rest)
            | c :: rest' =>
                if Char.eqb c "." then span_digits rest' else ([], rest)
            end) as [frac_part rest'].
  destruct (int_part ++ frac_part).
  - destruct (decimal.special sign body); [discriminate|congruence].
  - destruct (decimal.exponent_part rest'); [discriminate|congruence].
Qed.

Lemma parse_amount_raises s e : parse_amount s = Raise e -> e = InvalidOperation.
Proof. apply of_str_raises. Qed.

Lemma Transaction_new_raises d desc a ty cn e :
  Transaction_new d desc a ty cn = Raise e -> e = ValueError.
Proof. unfold Transaction_new. case_match; [discriminate|congruence]. Qed.

Lemma Transaction_new_ok d desc a ty cn t :
  Transaction_new d desc a ty cn = Ok t ->
  t = mkTransaction d desc a ty cn None false false
  /\ decimal.nonneg a = true.
Proof.
  unfold Transaction_new. destruct (decimal.nonneg a); [|discriminate].
  by intros [= <-].
Qed.

(** * Sorting *)

Section SortFacts.

Context {A : Type}.
Variable lt : A -> A -> bool.
Hypothesis lt_asym : forall a b, lt a b = true -> lt b a = false.

(** [a] may stand before [b]: the key of [b] is not the smaller one. *)
Definition not_after (a b : A) : Prop := lt b a = false.

Lemma insert_before_Forall (P : A -> Prop) x l :
  P x -> Forall P l -> Forall P (insert_before lt x l).
Proof.
  intros Hx. induction 1 as [|y l Hy Hl IH]; simpl.
  - by constructor.
  - destruct (lt y x); constructor; auto.
Qed.

Lemma sort_Forall (P : A -> Prop) l : Forall P l -> Forall P (sort lt l).
Proof.
  induction 1 as [|x l Hx Hl IH]; simpl; [done|].
  by apply insert_before_Forall.
Qed.

Lemma insert_before_HdRel y x l :
  lt y x = true -> HdRel not_after y l -> HdRel not_after y (insert_before lt x l).
Proof.
  intros Hyx Hl. destruct l as [|z l]; simpl.
  - constructor. by apply lt_asym.
  - destruct (lt z x); constructor.
    + by inversion Hl.
    + by apply lt_asym.
Qed.

Lemma insert_before_Sorted x l :
  Sorted not_after l -> Sorted not_after (insert_before lt x l).
Proof.
  induction 1 as [|y l Hl IH Hy]; simpl.
  - by repeat constructor.
  - destruct (lt y x) eqn:E.
    + constructor; [done|]. by apply insert_before_HdRel.
    + constructor; [by constructor|]. by constructor.
Qed.

Lemma sort_Sorted l : Sorted not_after (sort lt l).
Proof.
  induction l as [|x l IH]; simpl; [constructor|].
  by apply insert_before_Sorted.
Qed.

End SortFacts.

Lemma Sorted_weaken {A} (R1 R2 : A -> A -> Prop) l :
  (forall a b, R1 a b -> R2 a b) -> Sorted R1 l -> Sorted R2 l.
Proof.
  intros HR. induction 1 as [|x l Hl IH Hx]; constructor; [done|].
  destruct Hx; constructor; auto.
Qed.

(** * Dates and keys *)

Lemma date_eqb_eq a b : datetime.eqb a b = true <-> a = b.
Proof.
  destruct a as [y m d], b as [y' m' d']. unfold datetime.eqb. simpl.
  rewrite !andb_true_iff, !Z.eqb_eq. split.
  - by intros [[-> ->] ->].
  - by intros [= -> -> ->].
Qed.

Lemma date_ltb_asym a b : datetime.ltb a b = true -> datetime.ltb b a = false.
Proof.
  destruct a as [y m d], b as [y' m' d']. unfold datetime.ltb. simpl.
  rewrite !orb_true_iff, !andb_true_iff, !orb_true_iff, !andb_true_iff,
    !Z.ltb_lt, !Z.eqb_eq.
  intros H. apply not_true_is_false.
  rewrite !orb_true_iff, !andb_true_iff, !orb_true_iff, !andb_true_iff,
    !Z.ltb_lt, !Z.eqb_eq.
  lia.
Qed.

Lemma date_ltb_total a b :
  datetime.ltb b a = false -> datetime.eqb b a = false -> datetime.ltb a b = true.
Proof.
  destruct a as [y m d], b as [y' m' d']. unfold datetime.ltb, datetime.eqb.
  simpl. intros H1 H2.
  apply not_true_iff_false in H1, H2.
  rewrite !orb_true_iff, !andb_true_iff, !orb_true_iff, !andb_true_iff,
    !Z.ltb_lt, !Z.eqb_eq in *.
  lia.
Qed.

Lemma date_eqb_sym a b : datetime.eqb a b = datetime.eqb b a.
Proof.
  destruct (datetime.eqb a b) eqn:E1, (datetime.eqb b a) eqn:E2; try done.
  - apply date_eqb_eq in E1 as ->.
    by rewrite (proj2 (date_eqb_eq b b) eq_refl) in E2.
  - apply date_eqb_eq in E2 as ->.
    by rewrite (proj2 (date_eqb_eq a a) eq_refl) in E1.
Qed.

Lemma tx_ltb_asym a b :
  TruistParser.tx_ltb a b = true -> TruistParser.tx_ltb b a = false.
Proof.
  unfold TruistParser.tx_ltb, TruistParser.key_ltb, TruistParser.sort_key.
  simpl. rewrite (date_eqb_sym (date b) (date a)).
  destruct (datetime.eqb (date a) (date b)); simpl.
  - by destruct (transaction_type a), (transaction_type b).
  - apply date_ltb_asym.
Qed.

(** Two records in the order of their keys are in order by date, the order
    of the values breaking the ties. *)
Lemma not_after_in_order a b :
  not_after TruistParser.tx_ltb a b -> in_order value_rank a b.
Proof.
  unfold not_after, TruistParser.tx_ltb, TruistParser.key_ltb,
    TruistParser.sort_key, in_order. simpl.
  destruct (datetime.eqb (date b) (date a)) eqn:E; simpl.
  - apply date_eqb_eq in E. right. split; [done|].
    destruct (transaction_type a), (transaction_type b); simpl;
      try lia; discriminate.
  - intros H. left. by apply date_ltb_total.
Qed.

(** * Amounts *)

(** A digit is no space, no sign, no point, no underscore and no comma. *)
Lemma digit_plain c :
  Char.is_digit c = true ->
  Char.is_space c = false
  /\ Char.eqb c "-" = false /\ Char.eqb c "+" = false
  /\ Char.eqb c "." = false /\ Char.eqb c "_" = false
  /\ Char.eqb c "," = false.
Proof.
  destruct c as [[] [] [] [] [] [] [] []]; vm_compute; intros H;
    try discriminate H; done.
Qed.

Lemma lstrip_plain c s : Char.is_space c = false -> Str.lstrip (c :: s) = c :: s.
Proof. intros H. simpl. by rewrite H. Qed.

(** [strip] leaves a string alone that begins and ends with a digit. *)
Lemma strip_digits_around a s b :
  Char.is_digit a = true -> Char.is_digit b = true ->
  Str.strip (a :: s ++ [b]) = a :: s ++ [b].
Proof.
  intros Ha Hb. unfold Str.strip, Str.rstrip.
  rewrite lstrip_plain by apply (digit_plain a Ha).
  assert (Hrev : rev (a :: s ++ [b]) = b :: rev (a :: s)).
  { change (a :: s ++ [b]) with ((a :: s) ++ [b]). by rewrite rev_app_distr. }
  rewrite Hrev, lstrip_plain by apply (digit_plain b Hb).
  change (rev (b :: rev (a :: s))) with (rev (rev (a :: s)) ++ [b]).
  by rewrite rev_involutive.
Qed.

Lemma remove_other c s :
  Forall (fun x => Char.eqb x c = false) s -> Str.remove c s = s.
Proof.
  unfold Str.remove. induction 1 as [|x s Hx Hs IH]; [done|].
  rewrite filter_cons_True by done. by rewrite IH.
Qed.

Lemma remove_app c s1 s2 :
  Str.remove c (s1 ++ s2) = Str.remove c s1 ++ Str.remove c s2.
Proof. apply filter_app. Qed.

Lemma all_digits_Forall s :
  Str.all_digits s = true <-> Forall (fun c => Char.is_digit c = true) s.
Proof.
  unfold Str.all_digits. rewrite forallb_forall, Forall_forall.
  split; intros H x Hx; apply H; by apply list_elem_of_In.
Qed.

Lemma span_digits_app ds rest :
  Str.all_digits ds = true ->
  match rest with
  | c :: _ => Char.is_digit c = false
  | [] => True
  end ->
  span_digits (ds ++ rest) = (ds, rest).
Proof.
  intros Hds Hrest. induction ds as [|d ds IH]; simpl.
  - destruct rest as [|c rest]; [done|]. simpl. by rewrite Hrest.
  - simpl in Hds. apply andb_prop in Hds as [Hd Hds].
    rewrite Hd, IH by done. done.
Qed.

(** The shape of a string that [two_decimals] accepts. *)
Lemma two_decimals_shape s :
  two_decimals s = true ->
  exists d ds a b,
    s = (d :: ds) ++ ["."%char; a; b]
    /\ Str.all_digits (d :: ds) = true
    /\ Char.is_digit a = true /\ Char.is_digit b = true.
Proof.
  unfold two_decimals. intros H.
  destruct (rev s) as [|b [|a [|dot ipr]]] eqn:E; try discriminate.
  rewrite !andb_true_iff in H. destruct H as ((((Hb & Ha) & Hdot) & Hds) & Hne).
  apply Ascii.eqb_eq in Hdot as ->.
  assert (Hs : s = rev ipr ++ ["."%char; a; b]).
  { rewrite <- (rev_involutive s), E. simpl. by rewrite <- !app_assoc. }
  assert (Hall : Str.all_digits (rev ipr) = true).
  { apply all_digits_Forall. apply Forall_rev. by apply all_digits_Forall. }
  destruct (rev ipr) as [|d ds] eqn:Er.
  - apply (f_equal (@rev ascii)) in Er. rewrite rev_involutive in Er.
    subst ipr. done.
  - by exists d, ds, a, b.
Qed.

(** [Decimal] reads a signless decimal of two fractional digits as the
    number of hundredths its digits write. *)
Lemma of_str_two_decimals s :
  two_decimals s = true -> decimal.of_str s = Ok (two_decimals_value s).
Proof.
  intros H. apply two_decimals_shape in H as (d & ds & a & b & -> & Hds & Ha & Hb).
  assert (Hd : Char.is_digit d = true).
  { apply all_digits_Forall, Forall_cons in Hds. tauto. }
  assert (Hplain : Forall (fun x => Char.is_digit x = true \/ x = "."%char)
                     ((d :: ds) ++ ["."%char; a; b])).
  { apply Forall_app. split.
    - apply all_digits_Forall in Hds. eapply Forall_impl; [done|]. auto.
    - constructor; [by right|]. constructor; [by left|].
      constructor; [by left|]. constructor. }
  unfold decimal.of_str, two_decimals_value.
  replace (Str.strip ((d :: ds) ++ ["."%char; a; b]))
    with ((d :: ds) ++ ["."%char; a; b]).
  2:{ assert (Heq : (d :: ds) ++ ["."%char; a; b]
                    = d :: (ds ++ ["."%char; a]) ++ [b])
        by (simpl; by rewrite <- app_assoc).
      rewrite Heq. symmetry. by apply strip_digits_around. }
  rewrite (remove_other "_").
  2:{ eapply Forall_impl; [done|]. intros x [Hx| ->]; [|done].
      apply (digit_plain x Hx). }
  unfold split_sign at 1. cbn [app].
  destruct (digit_plain d Hd) as (_ & -> & -> & _).
  change (d :: ds ++ ["."%char; a; b]) with ((d :: ds) ++ ["."%char; a; b]).
  rewrite span_digits_app by done.
  change (Char.eqb "." ".") with true. cbv iota.
  assert (Hfrac : span_digits [a; b] = ([a; b], []))
    by (simpl; by rewrite Ha, Hb).
  rewrite Hfrac.
  rewrite remove_app.
  rewrite (remove_other "." (d :: ds)).
  2:{ apply all_digits_Forall in Hds. eapply Forall_impl; [done|].
      intros x Hx. apply (digit_plain x Hx). }
  replace (Str.remove "." ["."%char; a; b]) with [a; b].
  2:{ unfold Str.remove. rewrite filter_cons_False by (by intros H).
      destruct (digit_plain a Ha) as (_ & _ & _ & Ha' & _).
      destruct (digit_plain b Hb) as (_ & _ & _ & Hb' & _).
      rewrite filter_cons_True by done. by rewrite filter_cons_True by done. }
  destruct ((d :: ds) ++ [a; b]) eqn:E; [done|]. done.
Qed.

(** C4, as the code has it.  For every input string, [parse_amount] drops
    the commas and the surrounding whitespace and hands the remainder to
    [Decimal]: on a signless decimal with exactly two fractional digits it
    returns exactly that value, and when it fails it fails with the format
    error [InvalidOperation], on a remainder that is no such decimal. *)
Theorem parse_amount_reads_two_decimals amount_str :
  let cleaned := Str.strip (Str.remove "," amount_str) in
  parse_amount amount_str = decimal.of_str cleaned
  /\ (two_decimals cleaned = true ->
      parse_amount amount_str = Ok (two_decimals_value cleaned))
  /\ (forall e, parse_amount amount_str = Raise e ->
                e = InvalidOperation /\ two_decimals cleaned = false).
Proof.
  intros cleaned. split_and!.
  - done.
  - apply of_str_two_decimals.
  - intros e H. split; [by apply parse_amount_raises in H|].
    destruct (two_decimals cleaned) eqn:E; [|done].
    apply of_str_two_decimals in E. unfold parse_amount in H.
    fold cleaned in H. congruence.
Qed.

Lemma parse_amount_reads_two_decimals_witness :
  parse_amount (txt " 1,234.56 ") = Ok (decimal.Finite false 123456 (-2))
  /\ parse_amount (txt "12.3x") = Raise InvalidOperation.
Proof.
  split.
  - apply (proj1 (proj2 (parse_amount_reads_two_decimals (txt " 1,234.56 ")))).
    vm_compute. reflexivity.
  - destruct (parse_amount (txt "12.3x")) as [d|e] eqn:E.
    + vm_compute in E. discriminate E.
    + by destruct (proj2 (proj2 (parse_amount_reads_two_decimals (txt "12.3x")))
                     e E) as [-> _].
Defined.

(** The claim as the specification words it fails: these remainders are no
    signless decimals with two fractional digits, and [parse_amount]
    returns a value for each, a negative one for the second. *)
Lemma lenient_amount_counterexample :
  (two_decimals (Str.strip (Str.remove "," (txt "5"))) = false
   /\ parse_amount (txt "5") = Ok (decimal.Finite false 5 0))
  /\ (two_decimals (Str.strip (Str.remove "," (txt "-1.00"))) = false
      /\ parse_amount (txt "-1.00") = Ok (decimal.Finite true 100 (-2)))
  /\ (two_decimals (Str.strip (Str.remove "," (txt "1e3"))) = false
      /\ parse_amount (txt "1e3") = Ok (decimal.Finite false 1 3))
  /\ (two_decimals (Str.strip (Str.remove "," (txt "12.5"))) = false
      /\ parse_amount (txt "12.5") = Ok (decimal.Finite false 125 (-1))).
Proof. repeat split; vm_compute; reflexivity. Qed.

(** * Digits *)

Lemma strip_all_digits s : Str.all_digits s = true -> Str.strip s = s.
Proof.
  intros H. apply all_digits_Forall in H.
  destruct s as [|a s]; [done|].
  destruct (rev s) as [|b t] eqn:E.
  - apply (f_equal (@rev ascii)) in E. rewrite rev_involutive in E. subst s.
    apply Forall_cons in H as [Ha _].
    unfold Str.strip, Str.rstrip.
    rewrite lstrip_plain by apply (digit_plain a Ha). simpl.
    destruct (digit_plain a Ha) as (Hsp & _). by rewrite Hsp.
  - apply (f_equal (@rev ascii)) in E. rewrite rev_involutive in E. subst s.
    simpl in H. apply Forall_cons in H as [Ha H].
    apply Forall_app in H as [_ Hb]. apply Forall_cons in Hb as [Hb _].
    simpl. by apply strip_digits_around.
Qed.

Lemma grouped_all_digits s : forall after_digit,
  Str.all_digits s = true ->
  s <> [] \/ after_digit = true ->
  grouped_digits after_digit s = true.
Proof.
  induction s as [|c s IH]; intros after_digit Hs Hne.
  - by destruct Hne.
  - simpl in Hs. apply andb_prop in Hs as [Hc Hs]. simpl. rewrite Hc.
    apply IH; auto.
Qed.

(** [int] reads every run of digits that is not empty. *)
Lemma int_digits s :
  Str.all_digits s = true -> s <> [] -> exists n, int s = Ok n.
Proof.
  intros Hs Hne. unfold int. rewrite strip_all_digits by done.
  destruct s as [|c s]; [done|].
  simpl in Hs. apply andb_prop in Hs as [Hc Hs].
  unfold split_sign. destruct (digit_plain c Hc) as (_ & -> & -> & _).
  rewrite grouped_all_digits; [eauto| |by left].
  simpl. by rewrite Hc.
Qed.

Lemma denote_alt ic r1 r2 w :
  denote ic (RAlt r1 r2) w = denote ic r1 w || denote ic r2 w.
Proof. done. Qed.

Lemma denote_seq ic r1 r2 w :
  denote ic (RSeq r1 r2) w = true ->
  exists w1 w2, w = w1 ++ w2 /\ denote ic r1 w1 = true /\ denote ic r2 w2 = true.
Proof.
  cbn [denote]. intros H. apply existsb_exists in H as (n & _ & H).
  exists (take n w), (drop n w). rewrite take_drop.
  by destruct (denote ic r1 (take n w)).
Qed.

Lemma denote_chr c w :
  denote false (RChr [AChar c]) w = true -> w = [c].
Proof.
  destruct w as [|x [|]]; try done. simpl. rewrite orb_false_r.
  by intros ->%Ascii.eqb_eq.
Qed.

(** The strings of a counted run of digits. *)
Lemma denote_digits ic n g w :
  denote ic (RRep [ADigit] (S n) (Some (S n)) g) w = true ->
  Str.all_digits w = true /\ w <> [].
Proof.
  cbn [denote]. rewrite !andb_true_iff. intros [[Hlo _] Hall]. split.
  - apply all_digits_Forall, Forall_forall. intros c Hc.
    rewrite forallb_forall in Hall. apply list_elem_of_In in Hc.
    specialize (Hall c Hc). simpl in Hall. by rewrite orb_false_r in Hall.
  - intros ->. by simpl in Hlo.
Qed.

Lemma split_no_sep c s :
  Forall (fun x => Char.eqb x c = false) s -> Str.split c s = [s].
Proof.
  induction 1 as [|x s Hx Hs IH]; [done|]. simpl. by rewrite Hx, IH.
Qed.

Lemma split_sep c s rest :
  Forall (fun x => Char.eqb x c = false) s ->
  Str.split c (s ++ c :: rest) = s :: Str.split c rest.
Proof.
  induction 1 as [|x s Hx Hs IH]; simpl.
  - unfold Char.eqb. by rewrite Ascii.eqb_refl.
  - by rewrite Hx, IH.
Qed.

Lemma digits_no_slash s :
  Str.all_digits s = true -> Forall (fun x => Char.eqb x "/" = false) s.
Proof.
  intros H. apply all_digits_Forall in H. eapply Forall_impl; [done|].
  intros x. by destruct x as [[] [] [] [] [] [] [] []].
Qed.

(** The strings of a run of exactly [n] digits. *)
Lemma denote_digits_length ic n g w :
  denote ic (RRep [ADigit] n (Some n) g) w = true ->
  Str.all_digits w = true /\ length w = n.
Proof.
  cbn [denote]. rewrite !andb_true_iff, !Nat.leb_le.
  intros [[Hlo Hhi] Hall]. split; [|lia].
  apply all_digits_Forall, Forall_forall. intros c Hc.
  rewrite forallb_forall in Hall. apply list_elem_of_In in Hc.
  specialize (Hall c Hc). simpl in Hall. by rewrite orb_false_r in Hall.
Qed.

Lemma digit_val_bound c : Char.is_digit c = true -> (Char.digit_val c <= 9)%N.
Proof.
  unfold Char.is_digit, Char.digit_val. rewrite andb_true_iff, !Nat.leb_le.
  lia.
Qed.

(** A run of [n] digits stands for a number below [10 ^ n]. *)
Lemma digits_val_bound s :
  Str.all_digits s = true ->
  (Str.digits_val s < 10 ^ N.of_nat (length s))%N.
Proof.
  intros H. apply all_digits_Forall in H. unfold Str.digits_val.
  assert (Hgen : forall acc,
            (fold_left (fun acc c => 10 * acc + Char.digit_val c) s acc
             < (acc + 1) * 10 ^ N.of_nat (length s))%N).
  { induction H as [|c s Hc Hs IH]; intros acc.
    - simpl. lia.
    - cbn [fold_left length]. specialize (IH (10 * acc + Char.digit_val c)%N).
      apply digit_val_bound in Hc.
      rewrite Nat2N.inj_succ, N.pow_succ_r'.
      eapply N.lt_le_trans; [exact IH|].
      replace ((acc + 1) * (10 * 10 ^ N.of_nat (length s)))%N
        with ((10 * acc + 10) * 10 ^ N.of_nat (length s))%N by lia.
      apply N.mul_le_mono_r. lia. }
  specialize (Hgen 0%N). lia.
Qed.

(** [int] reads a run of at most nine digits as a number that fits a C
    [int]. *)
Lemma int_short s :
  Str.all_digits s = true -> s <> [] -> length s <= 9 ->
  exists n, int s = Ok n /\ (0 <= n < 10 ^ Z.of_nat (length s))%Z
            /\ datetime.c_int n = true.
Proof.
  intros Hs Hne Hlen. pose proof (digits_val_bound s Hs) as Hb.
  assert (Hrm : Str.remove "_" s = s).
  { apply remove_other. apply all_digits_Forall in Hs.
    eapply Forall_impl; [exact Hs|]. intros c Hc.
    by destruct (digit_plain c Hc) as (_ & _ & _ & _ & ? & _). }
  unfold int. rewrite strip_all_digits by done.
  destruct s as [|c s]; [done|].
  pose proof Hs as Hs'. simpl in Hs'. apply andb_prop in Hs' as [Hc Hs'].
  unfold split_sign. destruct (digit_plain c Hc) as (_ & -> & -> & _).
  rewrite grouped_all_digits; [| |by left].
  2:{ simpl. by rewrite Hc, Hs'. }
  rewrite Hrm. eexists. split; [done|].
  assert (Hz : (0 <= Z.of_N (Str.digits_val (c :: s))
                < 10 ^ Z.of_nat (length (c :: s)))%Z).
  { split; [lia|].
    replace (10 ^ Z.of_nat (length (c :: s)))%Z
      with (Z.of_N (10 ^ N.of_nat (length (c :: s)))).
    - lia.
    - rewrite N2Z.inj_pow. f_equal; lia. }
  split; [exact Hz|].
  assert (Hp : (10 ^ Z.of_nat (length (c :: s)) <= 10 ^ 9)%Z)
    by (apply Z.pow_le_mono_r; lia).
  unfold datetime.c_int. apply andb_true_iff. rewrite !Z.leb_le. lia.
Qed.

(** A date of a transaction line, [MM/DD]: two runs of two digits. *)
Definition day_month (date_str : str) : Prop :=
  exists month day,
    Str.split "/" date_str = [month; day]
    /\ (Str.all_digits month = true /\ length month = 2)
    /\ (Str.all_digits day = true /\ length day = 2).

Lemma denote_slash ic s :
  denote ic (RChr [AChar "/"]) s = true -> s = ["/"%char].
Proof.
  destruct s as [|x [|]]; try done. simpl. rewrite orb_false_r.
  destruct ic; by destruct x as [[] [] [] [] [] [] [] []].
Qed.

Lemma denote_day_month ic w :
  denote ic
    (RSeq (RRep [ADigit] 2 (Some 2) true)
       (RSeq (RChr [AChar "/"]) (RRep [ADigit] 2 (Some 2) true))) w = true ->
  day_month w.
Proof.
  intros H.
  apply denote_seq in H as (d1 & w1 & -> & H1 & H).
  apply denote_seq in H as (s1 & d2 & -> & Hs1 & H2).
  apply denote_digits_length in H1, H2. apply denote_slash in Hs1 as ->.
  exists d1, d2. split; [|done]. simpl.
  rewrite split_sep by apply digits_no_slash, H1.
  by rewrite split_no_sep by apply digits_no_slash, H2.
Qed.

(** [parse_date] on such a date: whether it raises [OverflowError] is a
    matter of the year alone. *)
Lemma parse_date_cases date_str year :
  day_month date_str ->
  match parse_date date_str year with
  | Ok _ => datetime.c_int year = true
  | Raise e => if datetime.c_int year then e = ValueError else e = OverflowError
  end.
Proof.
  intros (month & day & Hsplit & [Hm Lm] & [Hd Ld]).
  unfold parse_date. rewrite Hsplit.
  destruct (int_short month Hm) as (m & -> & _ & Cm);
    [by destruct month|lia|].
  destruct (int_short day Hd) as (d & -> & _ & Cd); [by destruct day|lia|].
  cbn [bind].
  destruct (datetime.new year m d) as [dt|e] eqn:E.
  - unfold datetime.new in E. rewrite Cm, Cd, !andb_true_r in E.
    by destruct (datetime.c_int year).
  - apply date_new_raises in E. by rewrite Cm, Cd, !andb_true_r in E.
Qed.

(** * The line parser *)

Lemma line_pattern_binds : binds line_pattern = [1; 2; 3].
Proof. reflexivity. Qed.

Lemma check_pattern_binds : binds check_pattern = [1; 2; 3].
Proof. reflexivity. Qed.

Lemma groups3_inv text m a b c :
  groups3 text m = Ok (a, b, c) ->
  group text m 1 = Some a /\ group text m 2 = Some b /\ group text m 3 = Some c.
Proof.
  unfold groups3.
  destruct (group text m 1), (group text m 2), (group text m 3);
    simpl; try done.
  by intros [= -> -> ->].
Qed.

(** The first group of a transaction line and of a check entry is a date
    [MM/DD]. *)
Lemma line_date_shape line m date_str desc amount_str :
  re_match false line_pattern line = Some m ->
  groups3 line m = Ok (date_str, desc, amount_str) ->
  day_month date_str.
Proof.
  intros Em Eg. apply groups3_inv in Eg as (Hg & _ & _).
  apply (match_at_caps line false line_pattern [] line m eq_refl eq_refl) in Em.
  destruct (group_sound _ _ _ _ _ _ Em Hg) as (body & Hin & Hd).
  apply list_elem_of_In in Hin. vm_compute in Hin.
  destruct Hin as [Hin|[Hin|[Hin|[]]]]; inversion Hin; subst body.
  by apply denote_day_month in Hd.
Qed.

Lemma check_date_shape text m date_str check_num amount_str :
  caps_good text false check_pattern (m_caps m) ->
  groups3 text m = Ok (date_str, check_num, amount_str) ->
  day_month date_str.
Proof.
  intros Hc Eg. apply groups3_inv in Eg as (Hg & _ & _).
  destruct (group_sound _ _ _ _ _ _ Hc Hg) as (body & Hin & Hd).
  apply list_elem_of_In in Hin. vm_compute in Hin.
  destruct Hin as [Hin|[Hin|[Hin|[]]]]; inversion Hin; subst body.
  by apply denote_day_month in Hd.
Qed.

(** The guarded conversion of a line: the record is appended, or the
    records are left as they were; with a year that [date] cannot read as
    a C integer, [OverflowError] leaves the guard. *)
Lemma guarded_record date_str year amount_str desc ty cn :
  day_month date_str ->
  exists recs,
    length recs <= 1
    /\ Forall (fun t => transaction_type t = ty /\ check_number t = cn
                        /\ decimal.nonneg (amount t) = true) recs
    /\ (raises (parse_date date_str year) = true -> recs = [])
    /\ (raises (parse_amount amount_str) = true -> recs = [])
    /\ ((forall acc',
           catch
             (d <- parse_date date_str year ;;
              a <- parse_amount amount_str ;;
              t <- Transaction_new d desc a ty cn ;;
              Ok (acc' ++ [t]))
             [ValueError; InvalidOperation]
             (Ok acc') = Ok (acc' ++ recs))
        \/ (datetime.c_int year = false
            /\ forall acc',
                 catch
                   (d <- parse_date date_str year ;;
                    a <- parse_amount amount_str ;;
                    t <- Transaction_new d desc a ty cn ;;
                    Ok (acc' ++ [t]))
                   [ValueError; InvalidOperation]
                   (Ok acc') = Raise OverflowError)).
Proof.
  intros Hshape. pose proof (parse_date_cases date_str year Hshape) as Hcase.
  destruct (parse_date date_str year) as [d|e] eqn:Ed; cbn [bind].
  2:{ exists []. split_and!; simpl; try done; try lia.
      destruct (datetime.c_int year); subst e.
      - left. intros acc'. by rewrite app_nil_r.
      - right. split; [done|]. intros acc'.
        first [done | apply catch_overflow]. }
  destruct (parse_amount amount_str) as [a|e] eqn:Ea; cbn [bind].
  2:{ exists []. apply parse_amount_raises in Ea as ->.
      split_and!; simpl; try done; try lia.
      left. intros acc'. by rewrite app_nil_r. }
  destruct (Transaction_new d desc a ty cn) as [t|e] eqn:Et; cbn [bind].
  - exists [t]. apply Transaction_new_ok in Et as [-> Hn].
    split_and!; simpl; try done; try lia; [by repeat constructor|by left].
  - exists []. apply Transaction_new_raises in Et as ->.
    split_and!; simpl; try done; try lia.
    left. intros acc'. by rewrite app_nil_r.
Qed.

(** One turn of the loop appends at most one record, the same whatever the
    records it was given; it raises nothing, but [OverflowError] with a
    year that [date] cannot read as a C integer. *)
Lemma line_step_shape year ty line :
  exists recs,
    length recs <= 1
    /\ Forall (fun t => transaction_type t = ty /\ check_number t = None
                        /\ decimal.nonneg (amount t) = true) recs
    /\ ((forall acc, line_step year ty line acc = Ok (acc ++ recs))
        \/ (datetime.c_int year = false /\ recs = []
            /\ forall acc, line_step year ty line acc = Raise OverflowError)).
Proof.
  assert (Hskip : exists recs : list Transaction,
    length recs <= 1
    /\ Forall (fun t => transaction_type t = ty /\ check_number t = None
                        /\ decimal.nonneg (amount t) = true) recs
    /\ ((forall acc : list Transaction, Ok acc = Ok (acc ++ recs))
        \/ (datetime.c_int year = false /\ recs = []
            /\ forall acc : list Transaction, Ok acc = Raise OverflowError))).
  { exists []. split_and!; simpl; [lia|done|].
    left. intros acc. by rewrite app_nil_r. }
  unfold line_step.
  repeat (case_match; [exact Hskip|]).
  destruct (re_match false line_pattern (Str.strip line)) as [m|] eqn:Em;
    [|exact Hskip].
  destruct (groups3_ok false line_pattern 0 (Str.strip line) m (Str.strip line) Em)
    as (d & desc & a & Eg);
    try (rewrite line_pattern_binds; apply list_elem_of_In; simpl; tauto).
  pose proof (line_date_shape _ _ _ _ _ Em Eg) as Hshape.
  rewrite Eg. cbn [bind].
  case_match; [exact Hskip|].
  destruct (guarded_record d year a (Str.strip desc) ty None Hshape)
    as (recs & Hlen & Hall & Hd & _ & [Hc|[Hy Hc]]).
  - exists recs. split_and!; try done. by left.
  - exists []. split_and!; simpl; try done; try lia. by right.
Qed.

(** What a line contributes on its own is at most one record. *)
Lemma line_records_shape year ty line :
  length (line_records year ty line) <= 1
  /\ Forall (fun t => transaction_type t = ty /\ check_number t = None
                      /\ decimal.nonneg (amount t) = true)
       (line_records year ty line).
Proof.
  destruct (line_step_shape year ty line) as (recs & Hlen & Hall & [Hs|Hs]).
  - unfold line_records. by rewrite (Hs []).
  - destruct Hs as (_ & -> & Hs). unfold line_records. by rewrite (Hs []).
Qed.

(** One turn of the loop appends what the line contributes on its own, or
    raises [OverflowError]. *)
Lemma line_step_cases year ty line :
  (forall acc,
     line_step year ty line acc = Ok (acc ++ line_records year ty line))
  \/ (datetime.c_int year = false
      /\ forall acc, line_step year ty line acc = Raise OverflowError).
Proof.
  destruct (line_step_shape year ty line) as (recs & _ & _ & [Hs|Hs]).
  - left. intros acc. unfold line_records. rewrite (Hs []). simpl. apply Hs.
  - right. by destruct Hs as (Hy & _ & Hs).
Qed.

(** With a year that fits a C integer it never raises. *)
Lemma line_step_ok year ty line acc :
  datetime.c_int year = true ->
  line_step year ty line acc = Ok (acc ++ line_records year ty line).
Proof.
  intros Hy. destruct (line_step_cases year ty line) as [H|[H _]]; [done|].
  congruence.
Qed.

Lemma for_each_lines year ty : forall lines acc,
  datetime.c_int year = true ->
  for_each lines (line_step year ty) acc
  = Ok (acc ++ flat_map (line_records year ty) lines).
Proof.
  induction lines as [|line lines IH]; intros acc Hy; simpl.
  - by rewrite app_nil_r.
  - rewrite line_step_ok by done. simpl.
    rewrite IH by done. by rewrite <- app_assoc.
Qed.

(** Whatever the year, what the loop returns is what the lines
    contribute. *)
Lemma for_each_lines_inv year ty : forall lines acc out,
  for_each lines (line_step year ty) acc = Ok out ->
  out = acc ++ flat_map (line_records year ty) lines.
Proof.
  induction lines as [|line lines IH]; intros acc out; simpl.
  - intros [= <-]. by rewrite app_nil_r.
  - destruct (line_step_cases year ty line) as [H|[_ H]]; rewrite H; simpl;
      [|done].
    intros Hout. apply IH in Hout as ->. by rewrite <- app_assoc.
Qed.

(** With a year that fits a C integer the block parser never raises, and
    its records are the contributions of the lines, in order. *)
Lemma extract_transactions_ok text year ty :
  datetime.c_int year = true ->
  _extract_transactions_from_text text year ty
  = Ok (flat_map (line_records year ty) (Str.split NL text)).
Proof. unfold _extract_transactions_from_text. apply for_each_lines. Qed.

Lemma extract_transactions_inv text year ty recs :
  _extract_transactions_from_text text year ty = Ok recs ->
  recs = flat_map (line_records year ty) (Str.split NL text).
Proof.
  unfold _extract_transactions_from_text. intros H.
  by apply for_each_lines_inv in H.
Qed.

(** A line whose date or amount does not convert contributes nothing. *)
Lemma failed_conversion_skips year ty line m date_str desc amount_str :
  re_match false line_pattern (Str.strip line) = Some m ->
  groups3 (Str.strip line) m = Ok (date_str, desc, amount_str) ->
  raises (parse_date date_str year) = true
  \/ raises (parse_amount amount_str) = true ->
  line_records year ty line = [].
Proof.
  intros Em Eg Hr. pose proof (line_date_shape _ _ _ _ _ Em Eg) as Hshape.
  unfold line_records, line_step. cbv zeta.
  rewrite Em, Eg. cbn [bind].
  destruct (guarded_record date_str year amount_str (Str.strip desc) ty None
              Hshape)
    as (recs & _ & _ & Hd & Ha & [Hc|[_ Hc]]); rewrite (Hc []).
  - assert (recs = []) as -> by (destruct Hr; auto).
    by repeat case_match; simplify_eq.
  - by repeat case_match; simplify_eq.
Qed.

(** A line that is no header or footer, is a transaction line and converts
    becomes one record. *)
Lemma kept_line year ty line m date_str desc amount_str d a :
  Str.contains (txt "DESCRIPTION") (Str.upper line)
  && Str.contains (txt "AMOUNT") (Str.upper line) = false ->
  Str.contains (txt "DATE") (Str.upper line)
  && Str.contains (txt "CHECK") (Str.upper line) = false ->
  Str.contains (txt "CONTINUED") (Str.upper line) = false ->
  Str.contains (txt "PAGE") (Str.upper line)
  && Str.contains (txt "OF") (Str.upper line) = false ->
  re_match false line_pattern (Str.strip line) = Some m ->
  groups3 (Str.strip line) m = Ok (date_str, desc, amount_str) ->
  Str.eqb (Str.strip desc) [] || (length (Str.strip desc) <? 3)%nat = false ->
  parse_date date_str year = Ok d ->
  parse_amount amount_str = Ok a ->
  decimal.nonneg a = true ->
  line_records year ty line
  = [mkTransaction d (Str.strip desc) a ty None None false false].
Proof.
  intros H1 H2 H3 H4 Hm Hg Hlen Hd Ha Hn.
  unfold line_records, line_step. cbv zeta.
  rewrite H1, H2, H3, H4, Hm, Hg. cbn [bind]. rewrite Hlen, Hd, Ha.
  cbn [bind]. unfold Transaction_new. rewrite Hn. done.
Qed.

(** One turn of the loop over the check entries appends the record of the
    entry or nothing; it raises nothing, but [OverflowError] with a year
    that [date] cannot read as a C integer. *)
Lemma check_step_cases checks_text year m acc pos s :
  match_at false check_pattern pos s = Some m ->
  caps_good checks_text false check_pattern (m_caps m) ->
  exists recs,
    Forall (fun t => transaction_type t = CHECK /\ is_Some (check_number t)
                     /\ decimal.nonneg (amount t) = true) recs
    /\ (check_step checks_text year m acc = Ok (acc ++ recs)
        \/ (datetime.c_int year = false
            /\ check_step checks_text year m acc = Raise OverflowError)).
Proof.
  intros Em Hcaps. unfold check_step.
  destruct (groups3_ok false check_pattern pos s m checks_text Em)
    as (d & n & a & Eg);
    try (rewrite check_pattern_binds; apply list_elem_of_In; simpl; tauto).
  pose proof (check_date_shape _ _ _ _ _ Hcaps Eg) as Hshape.
  pose proof (parse_date_cases d year Hshape) as Hcase.
  rewrite Eg. cbn [bind].
  destruct (parse_date d year) as [dt|e] eqn:Ed; cbn [bind].
  2:{ exists []. split; [done|]. destruct (datetime.c_int year); subst e.
      - left. by rewrite app_nil_r.
      - right. split; [done|]. first [done | apply catch_overflow]. }
  destruct (parse_amount a) as [am|e] eqn:Ea; cbn [bind].
  2:{ apply parse_amount_raises in Ea as ->. exists []. split; [done|].
      left. by rewrite app_nil_r. }
  destruct (int n) as [num|e] eqn:En; cbn [bind].
  2:{ apply int_raises in En as ->. exists []. split; [done|].
      left. by rewrite app_nil_r. }
  destruct (Transaction_new dt (txt "Check #" ++ n) am CHECK (Some num))
    as [t|e] eqn:Et; cbn [bind].
  2:{ apply Transaction_new_raises in Et as ->. exists []. split; [done|].
      left. by rewrite app_nil_r. }
  apply Transaction_new_ok in Et as [-> Hn].
  eexists [_]. split; [|by left]. repeat constructor; simpl; eauto.
Qed.

Lemma for_each_checks checks_text year : forall ms acc,
  Forall (fun m => exists pos s, match_at false check_pattern pos s = Some m) ms ->
  Forall (fun m => caps_good checks_text false check_pattern (m_caps m)) ms ->
  exists recs,
    Forall (fun t => transaction_type t = CHECK /\ is_Some (check_number t)
                     /\ decimal.nonneg (amount t) = true) recs
    /\ (for_each ms (check_step checks_text year) acc = Ok (acc ++ recs)
        \/ (datetime.c_int year = false
            /\ for_each ms (check_step checks_text year) acc
               = Raise OverflowError)).
Proof.
  induction ms as [|m ms IH]; intros acc Hms Hcs; simpl.
  - exists []. split; [done|]. left. by rewrite app_nil_r.
  - apply Forall_cons in Hms as [(pos & s & Hm) Hms].
    apply Forall_cons in Hcs as [Hc Hcs].
    destruct (check_step_cases checks_text year m acc pos s Hm Hc)
      as (r1 & F1 & [->|[Hy ->]]); simpl.
    + destruct (IH (acc ++ r1) Hms Hcs) as (r2 & F2 & [->|[Hy ->]]).
      * exists (r1 ++ r2). rewrite app_assoc. split; [by apply Forall_app|].
        by left.
      * exists []. split; [done|]. by right.
    + exists []. split; [done|]. by right.
Qed.

(** The check extractor: every record of it is a check with its number and
    an amount that is not negative; it raises nothing, but [OverflowError]
    with a year that [date] cannot read as a C integer. *)
Lemma extract_checks_cases page year :
  exists recs,
    Forall (fun t => transaction_type t = CHECK /\ is_Some (check_number t)
                     /\ decimal.nonneg (amount t) = true) recs
    /\ (extract_checks_from_page page year = Ok recs
        \/ (datetime.c_int year = false
            /\ extract_checks_from_page page year = Raise OverflowError)).
Proof.
  unfold extract_checks_from_page.
  destruct (checks_span (text_of page)) as [[a b]|];
    [|exists []; split; [done|by left]].
  apply (for_each_checks _ year _ []).
  - apply finditer_from_match.
  - by apply finditer_caps.
Qed.

(** With a year that fits a C integer the check extractor never raises. *)
Lemma extract_checks_ok page year :
  datetime.c_int year = true ->
  exists recs,
    extract_checks_from_page page year = Ok recs
    /\ Forall (fun t => transaction_type t = CHECK /\ is_Some (check_number t)
                        /\ decimal.nonneg (amount t) = true) recs.
Proof.
  intros Hy. destruct (extract_checks_cases page year) as (recs & H & [E|[E _]]).
  - by exists recs.
  - congruence.
Qed.

(** A header or footer line, a line that is no transaction line, and a
    transaction line with a description of less than three characters
    contribute nothing. *)
Lemma passed_over_line year ty line :
  Str.contains (txt "DESCRIPTION") (Str.upper line)
  && Str.contains (txt "AMOUNT") (Str.upper line) = true
  \/ Str.contains (txt "DATE") (Str.upper line)
     && Str.contains (txt "CHECK") (Str.upper line) = true
  \/ Str.contains (txt "CONTINUED") (Str.upper line) = true
  \/ Str.contains (txt "PAGE") (Str.upper line)
     && Str.contains (txt "OF") (Str.upper line) = true
  \/ re_match false line_pattern (Str.strip line) = None
  \/ (exists m date_str desc amount_str,
        re_match false line_pattern (Str.strip line) = Some m
        /\ groups3 (Str.strip line) m = Ok (date_str, desc, amount_str)
        /\ Str.eqb (Str.strip desc) [] || (length (Str.strip desc) <? 3)%nat
           = true) ->
  line_records year ty line = [].
Proof.
  intros H. unfold line_records, line_step. cbv zeta.
  destruct (Str.contains (txt "DESCRIPTION") (Str.upper line)
            && Str.contains (txt "AMOUNT") (Str.upper line)); [done|].
  destruct (Str.contains (txt "DATE") (Str.upper line)
            && Str.contains (txt "CHECK") (Str.upper line)); [done|].
  destruct (Str.contains (txt "CONTINUED") (Str.upper line)); [done|].
  destruct (Str.contains (txt "PAGE") (Str.upper line)
            && Str.contains (txt "OF") (Str.upper line)); [done|].
  destruct H as [H|[H|[H|[H|[H|H]]]]]; try discriminate H.
  - by rewrite H.
  - destruct H as (m & date_str & desc & amount_str & -> & -> & Hshort).
    cbn [bind]. by rewrite Hshort.
Qed.

(** A block with a date that is no date between two good lines. *)
Definition block_with_bad_date : str :=
  txt "03/14 ACH CORP DEBIT  10.00
02/30 NOT A CALENDAR DAY  20.00
03/15 ZELLE PAYMENT  30.00".

(** C6, as the code has it.  For every text span, declared category and
    year that fits a C integer (every year of a calendar does), the
    transaction line parser returns normally: it never raises, and its
    records are the contributions of the lines of the span taken one by
    one, in order, each line contributing one record or none.  A line that
    is no header or footer, has the shape of a transaction line with a
    description of three characters or more, and whose date and amount
    convert, contributes its record, whatever the other lines are; a line
    whose date or amount does not convert contributes none, and so does a
    header or footer line, a line of another shape and a line with a
    shorter description.  The entries of a checks section are guarded the
    same way. *)
Theorem line_parser_never_raises text year transaction_type :
  datetime.c_int year = true ->
  _extract_transactions_from_text text year transaction_type
  = Ok (flat_map (line_records year transaction_type) (Str.split NL text))
  /\ (forall line, length (line_records year transaction_type line) <= 1)
  /\ (forall line m date_str desc amount_str d a,
        Str.contains (txt "DESCRIPTION") (Str.upper line)
        && Str.contains (txt "AMOUNT") (Str.upper line) = false ->
        Str.contains (txt "DATE") (Str.upper line)
        && Str.contains (txt "CHECK") (Str.upper line) = false ->
        Str.contains (txt "CONTINUED") (Str.upper line) = false ->
        Str.contains (txt "PAGE") (Str.upper line)
        && Str.contains (txt "OF") (Str.upper line) = false ->
        re_match false line_pattern (Str.strip line) = Some m ->
        groups3 (Str.strip line) m = Ok (date_str, desc, amount_str) ->
        Str.eqb (Str.strip desc) [] || (length (Str.strip desc) <? 3)%nat
        = false ->
        parse_date date_str year = Ok d ->
        parse_amount amount_str = Ok a ->
        decimal.nonneg a = true ->
        line_records year transaction_type line
        = [mkTransaction d (Str.strip desc) a transaction_type None None
             false false])
  /\ (forall line m date_str desc amount_str,
        re_match false line_pattern (Str.strip line) = Some m ->
        groups3 (Str.strip line) m = Ok (date_str, desc, amount_str) ->
        raises (parse_date date_str year) = true
        \/ raises (parse_amount amount_str) = true ->
        line_records year transaction_type line = [])
  /\ (forall line,
        Str.contains (txt "DESCRIPTION") (Str.upper line)
        && Str.contains (txt "AMOUNT") (Str.upper line) = true
        \/ Str.contains (txt "DATE") (Str.upper line)
           && Str.contains (txt "CHECK") (Str.upper line) = true
        \/ Str.contains (txt "CONTINUED") (Str.upper line) = true
        \/ Str.contains (txt "PAGE") (Str.upper line)
           && Str.contains (txt "OF") (Str.upper line) = true
        \/ re_match false line_pattern (Str.strip line) = None
        \/ (exists m date_str desc amount_str,
              re_match false line_pattern (Str.strip line) = Some m
              /\ groups3 (Str.strip line) m = Ok (date_str, desc, amount_str)
              /\ Str.eqb (Str.strip desc) []
                 || (length (Str.strip desc) <? 3)%nat = true) ->
        line_records year transaction_type line = [])
  /\ (forall page, raises (extract_checks_from_page page year) = false).
Proof.
  intros Hy. split_and!.
  - by apply extract_transactions_ok.
  - intros line. apply line_records_shape.
  - apply kept_line.
  - apply failed_conversion_skips.
  - apply passed_over_line.
  - intros page.
    by destruct (extract_checks_ok page year Hy) as (recs & -> & _).
Qed.

(** The line of [block_with_bad_date] dated 02/30 is passed over, and the
    lines around it are kept. *)
Example bad_date_skips_one_line :
  map description
    (flat_map (line_records 2025 WITHDRAWAL) (Str.split NL block_with_bad_date))
  = [txt "ACH CORP DEBIT"; txt "ZELLE PAYMENT"].
Proof. vm_compute. reflexivity. Qed.

Lemma line_parser_never_raises_witness :
  _extract_transactions_from_text block_with_bad_date 2025 WITHDRAWAL
  = Ok [mkTransaction (datetime.mkdate 2025 3 14) (txt "ACH CORP DEBIT")
          (decimal.Finite false 1000 (-2)) WITHDRAWAL None None false false;
        mkTransaction (datetime.mkdate 2025 3 15) (txt "ZELLE PAYMENT")
          (decimal.Finite false 3000 (-2)) WITHDRAWAL None None false false]
  /\ line_records 2025 WITHDRAWAL (txt "03/14 ACH CORP DEBIT  10.00")
     = [mkTransaction (datetime.mkdate 2025 3 14) (txt "ACH CORP DEBIT")
          (decimal.Finite false 1000 (-2)) WITHDRAWAL None None false false]
  /\ line_records 2025 WITHDRAWAL (txt "02/30 NOT A CALENDAR DAY  20.00") = [].
Proof.
  destruct (line_parser_never_raises block_with_bad_date 2025 WITHDRAWAL
              eq_refl) as (Hok & _ & Hkept & Hskip & _ & _).
  split_and!.
  - rewrite Hok. vm_compute. reflexivity.
  - eapply (Hkept (txt "03/14 ACH CORP DEBIT  10.00")
              (mkMatch 0 27 [(3, (22, 27)); (2, (6, 20)); (1, (0, 5))])
              (txt "03/14") (txt "ACH CORP DEBIT") (txt "10.00"));
      vm_compute; reflexivity.
  - eapply Hskip.
    + vm_compute. reflexivity.
    + vm_compute. reflexivity.
    + left. vm_compute. reflexivity.
Defined.

(** The claim as the specification words it, for every year, fails at a
    year that does not fit a C integer: [date] raises [OverflowError],
    which the guard of the line does not catch, at the first line that
    reaches the conversion; the check extractor does the same.  No year
    that the statement reader passes is such a year. *)
Lemma huge_year_counterexample :
  datetime.c_int 2147483648 = false
  /\ _extract_transactions_from_text block_with_bad_date 2147483648 WITHDRAWAL
     = Raise OverflowError
  /\ extract_checks_from_page
       (mkPage (Some (txt "Checks
DATE CHECK # AMOUNT
03/02 *1042  250.00
"))) 2147483648
     = Raise OverflowError.
Proof. split_and!; vm_compute; reflexivity. Qed.

(** * The statement metadata *)

(** The year of a statement is always read, and it fits a C integer when
    today's year does: it is a year of two or four digits of the first
    page, or today's year. *)
Lemma metadata_year today_year text :
  exists year,
    match re_search false TruistParser.STATEMENT_DATE text with
    | Some date_match =>
        year_str <- the_str (group text date_match 2) ;;
        if (length year_str =? 2)%nat then
          n <- int year_str ;; Ok (2000 + n)%Z
        else int year_str
    | None =>
        match re_search false TruistParser.ANY_YEAR text with
        | Some year_match => int (group0 text year_match)
        | None => Ok today_year
        end
    end = Ok year
    /\ (datetime.c_int today_year = true -> datetime.c_int year = true).
Proof.
  destruct (re_search false TruistParser.STATEMENT_DATE text) as [m|] eqn:Em.
  - destruct (search_from_match _ _ _ _ _ Em) as (pos & s0 & Hm).
    assert (Hb : 2 ∈ binds TruistParser.STATEMENT_DATE)
      by (apply list_elem_of_In; vm_compute; tauto).
    destruct (group_bound text m 2 (match_at_binds _ _ _ _ _ _ Hm Hb))
      as [year_str Hg].
    rewrite Hg. cbn [the_str bind].
    apply search_sound in Em as [Hc _]; [|reflexivity].
    destruct (group_sound _ _ _ _ _ _ Hc Hg) as (body & Hin & Hd).
    assert (Hdigits : Str.all_digits year_str = true
                      /\ (length year_str = 4 \/ length year_str = 2)).
    { apply list_elem_of_In in Hin. vm_compute in Hin.
      destruct Hin as [Hin|[Hin|[]]]; inversion Hin; subst body.
      rewrite denote_alt in Hd. apply orb_prop in Hd as [Hd|Hd];
        apply denote_digits_length in Hd as [Hd Hl]; auto. }
    destruct Hdigits as [Hall Hlen].
    destruct (int_short year_str Hall) as (n & -> & Hn & Cn);
      [by destruct year_str, Hlen|lia|].
    destruct (length year_str =? 2)%nat eqn:E2; cbn [bind].
    + eexists. split; [done|]. intros _. apply Nat.eqb_eq in E2.
      rewrite E2 in Hn. unfold datetime.c_int. apply andb_true_iff.
      rewrite !Z.leb_le. lia.
    + eexists. split; [done|]. by intros _.
  - destruct (re_search false TruistParser.ANY_YEAR text) as [m|] eqn:Em2;
      [|by exists today_year].
    apply search_sound in Em2 as [_ Hd]; [|reflexivity].
    revert Hd. generalize (group0 text m). intros w Hd.
    change (denote false TruistParser.ANY_YEAR w)
      with (denote false
              (RSeq (RChr [AChar "2"])
                 (RSeq (RChr [AChar "0"]) (RRep [ADigit] 2 (Some 2) true)))
              w) in Hd.
    apply denote_seq in Hd as (w1 & w' & -> & ->%denote_chr & Hd).
    apply denote_seq in Hd as (w2 & w3 & -> & ->%denote_chr & Hd).
    apply denote_digits_length in Hd as [Hd Hl].
    destruct (int_short ("2" :: "0" :: w3)%char) as (n & Hi & _ & Cn).
    + simpl. by rewrite Hd.
    + done.
    + simpl. lia.
    + exists n. by split.
Qed.

(** The year and the account number are always read: [_extract_metadata]
    never raises. *)
Lemma extract_metadata_ok today_year s :
  exists s', TruistParser._extract_metadata today_year s = Ok s'.
Proof.
  unfold TruistParser._extract_metadata.
  destruct (TruistParser.pdf s) as [document|]; [|eauto].
  destruct (pages document) as [|first rest]; [eauto|].
  cbv zeta.
  destruct (metadata_year today_year (text_of first)) as (year & -> & _).
  cbn [bind]. eauto.
Qed.


(** A document of the layout whose period starts on no calendar day. *)
Definition bad_period_statement : PDF :=
  mkPDF [mkPage (Some (txt "Truist
For 10/31/2025
Your previous balance as of 13/45/2025 $1,000.00
Your new balance as of 10/31/2025 $2,000.00
"))].

(** C2, where the code departs from it.  On the first page of
    [bad_period_statement] the year is found, the anchor of the period start
    is followed by the digits 13/45/2025, and [date(2025, 13, 45)] raises
    [ValueError] out of [_extract_statement_period], out of [parse] and out
    of [extract_statement]. *)
Theorem period_extraction_raises_on_bad_date :
  TruistParser._extract_metadata 2026
    (TruistParser.enter bad_period_statement TruistParser.init)
  = Ok (TruistParser.mkself (Some bad_period_statement) (Some 2025%Z) None)
  /\ TruistParser._extract_statement_period
       (TruistParser.mkself (Some bad_period_statement) (Some 2025%Z) None)
     = Raise ValueError
  /\ extract_statement 2026 (Some bad_period_statement) = Raise ValueError.
Proof. split_and!; vm_compute; reflexivity. Qed.

(** * The statement assembler *)

(** A statement of one page, with a withdrawal and a deposit on the same
    day, withdrawals first. *)
Definition two_section_statement : PDF :=
  mkPDF [mkPage (Some (txt "Truist Bank statement
For 10/31/2025
CHECKING 1340006375358
Other withdrawals, debits and service charges
DATE DESCRIPTION AMOUNT
03/15 ACH CORP DEBIT  10.00
Total other withdrawals, debits and service charges = $10.00
Deposits, credits and interest
DATE DESCRIPTION AMOUNT
03/15 PAYROLL DEPOSIT  20.00
Total deposits, credits and interest = $20.00
"))].

(** A document of the layout whose only page is nearly blank. *)
Definition cover_only_statement : PDF :=
  mkPDF [mkPage (Some (txt "Truist"))].

Lemma block_records text year ty recs :
  _extract_transactions_from_text text year ty = Ok recs ->
  Forall (fun t => transaction_type t = ty /\ check_number t = None
                   /\ decimal.nonneg (amount t) = true) recs.
Proof.
  intros ->%extract_transactions_inv.
  induction (Str.split NL text) as [|line lines IH]; simpl; [done|].
  apply Forall_app. split; [|done]. apply line_records_shape.
Qed.

Lemma withdrawals_records page year recs :
  extract_withdrawals_from_page page year = Ok recs ->
  Forall (fun t => transaction_type t = WITHDRAWAL /\ check_number t = None
                   /\ decimal.nonneg (amount t) = true) recs.
Proof.
  unfold extract_withdrawals_from_page.
  destruct (withdrawals_span (text_of page)) as [[a b]|].
  - apply block_records.
  - by intros [= <-].
Qed.

Lemma deposits_records page year recs :
  extract_deposits_from_page page year = Ok recs ->
  Forall (fun t => transaction_type t = DEPOSIT /\ check_number t = None
                   /\ decimal.nonneg (amount t) = true) recs.
Proof.
  unfold extract_deposits_from_page.
  destruct (deposits_span (text_of page)) as [[a b]|].
  - apply block_records.
  - by intros [= <-].
Qed.

Lemma checks_records page year recs :
  extract_checks_from_page page year = Ok recs ->
  Forall (fun t => transaction_type t = CHECK /\ is_Some (check_number t)
                   /\ decimal.nonneg (amount t) = true) recs.
Proof.
  destruct (extract_checks_cases page year) as (recs' & H & [->|[_ ->]]);
    [|done].
  by intros [= <-].
Qed.

Lemma well_formed_check t :
  transaction_type t = CHECK /\ is_Some (check_number t)
  /\ decimal.nonneg (amount t) = true -> well_formed t.
Proof. intros (Ht & Hc & Ha). split; [|done]. by split. Qed.

Lemma well_formed_other ty t :
  ty <> CHECK ->
  transaction_type t = ty /\ check_number t = None
  /\ decimal.nonneg (amount t) = true -> well_formed t.
Proof.
  intros Hty (Ht & Hc & Ha). split; [|done]. rewrite Hc, Ht. split.
  - by intros [x Hx].
  - done.
Qed.

(** A turn of the loop over the pages keeps the records it was given and
    adds well-formed ones. *)
Lemma page_step_well_formed document s entry acc acc' :
  TruistParser.page_step document s entry acc = Ok acc' ->
  Forall well_formed acc -> Forall well_formed acc'.
Proof.
  unfold TruistParser.page_step. destruct entry as [page_num is_tp].
  destruct is_tp; simpl; [|by intros [= <-]].
  destruct (pages document !! page_num) as [page|]; simpl; [|done].
  destruct (TruistParser._year s) as [year|]; simpl; [|done].
  destruct (extract_checks_from_page page year) as [cs|] eqn:Ec; simpl; [|done].
  destruct (extract_withdrawals_from_page page year) as [ws|] eqn:Ew; simpl;
    [|done].
  destruct (extract_deposits_from_page page year) as [ds|] eqn:Ed; simpl;
    [|done].
  intros [= <-] Hacc. rewrite !Forall_app. split_and!; [done|..].
  - eapply Forall_impl; [by apply checks_records in Ec|].
    apply well_formed_check.
  - eapply Forall_impl; [by apply withdrawals_records in Ew|].
    intros t. by apply (well_formed_other WITHDRAWAL).
  - eapply Forall_impl; [by apply deposits_records in Ed|].
    intros t. by apply (well_formed_other DEPOSIT).
Qed.

Lemma for_each_invariant {A S} (P : S -> Prop) (body : A -> S -> result S) :
  (forall x st st', body x st = Ok st' -> P st -> P st') ->
  forall xs st st', for_each xs body st = Ok st' -> P st -> P st'.
Proof.
  intros Hbody. induction xs as [|x xs IH]; intros st st'; simpl.
  - by intros [= <-].
  - destruct (body x st) as [st1|] eqn:E; simpl; [|done]. eauto.
Qed.

(** What a statement that [parse] returns is made of. *)
Lemma parse_inv today_year s st :
  TruistParser.parse today_year s = Ok st ->
  exists document s' start_date end_date all_transactions,
    TruistParser.pdf s = Some document
    /\ TruistParser._extract_metadata today_year s = Ok s'
    /\ TruistParser._extract_statement_period s' = Ok (start_date, end_date)
    /\ for_each (classify_pages document) (TruistParser.page_step document s') []
       = Ok all_transactions
    /\ st = mkBankStatement TruistParser.bank_name
              (TruistParser._account_number s') start_date end_date
              (sort TruistParser.tx_ltb all_transactions).
Proof.
  unfold TruistParser.parse.
  destruct (TruistParser.pdf s) as [document|]; [|done].
  destruct (TruistParser._extract_metadata today_year s) as [s'|]; simpl;
    [|done].
  destruct (TruistParser._extract_statement_period s') as [[sd ed]|] eqn:Ep;
    simpl; [|done].
  destruct (for_each _ _ _) as [all|] eqn:E; simpl; [|done].
  intros [= <-]. by exists document, s', sd, ed, all.
Qed.

(** What a statement that [extract_statement] returns is: one that the
    parser of the layout returned for the document. *)
Lemma extract_statement_inv today_year file st :
  extract_statement today_year file = Ok st ->
  exists document,
    file = Some document
    /\ TruistParser.can_parse document = true
    /\ TruistParser.parse today_year
         (TruistParser.enter document TruistParser.init) = Ok st.
Proof.
  unfold extract_statement. destruct file as [document|]; [|done].
  unfold detect_bank, BANK_PARSERS. simpl.
  destruct (TruistParser.can_parse document) eqn:E; [|done].
  simpl. intros H. by exists document.
Qed.

(** C9. Every record of every extraction path is well formed: it carries a
    check number exactly when its category is CHECK, and its amount is not
    negative.  The records of the check extractor are checks with their
    number; the records of the line parser, which runs for withdrawals and
    deposits, have no check number; and so it is for every record of an
    extracted statement. *)
Theorem records_are_well_formed :
  (forall page year recs,
     extract_checks_from_page page year = Ok recs ->
     Forall (fun t => transaction_type t = CHECK /\ is_Some (check_number t)
                      /\ well_formed t) recs)
  /\ (forall page year recs,
        extract_withdrawals_from_page page year = Ok recs ->
        Forall (fun t => transaction_type t = WITHDRAWAL
                         /\ check_number t = None /\ well_formed t) recs)
  /\ (forall page year recs,
        extract_deposits_from_page page year = Ok recs ->
        Forall (fun t => transaction_type t = DEPOSIT
                         /\ check_number t = None /\ well_formed t) recs)
  /\ (forall today_year file st,
        extract_statement today_year file = Ok st ->
        Forall well_formed (transactions st)).
Proof.
  split_and!.
  - intros page year recs H. apply checks_records in H.
    eapply Forall_impl; [done|]. intros t Ht. split_and!; try apply Ht.
    by apply well_formed_check.
  - intros page year recs H. apply withdrawals_records in H.
    eapply Forall_impl; [done|]. intros t Ht. split_and!; try apply Ht.
    by apply (well_formed_other WITHDRAWAL).
  - intros page year recs H. apply deposits_records in H.
    eapply Forall_impl; [done|]. intros t Ht. split_and!; try apply Ht.
    by apply (well_formed_other DEPOSIT).
  - intros today_year file st H.
    apply extract_statement_inv in H as (document & _ & _ & H).
    apply parse_inv in H as (doc & s' & sd & ed & all & _ & _ & _ & Hall & ->).
    simpl. apply sort_Forall.
    eapply (for_each_invariant (Forall well_formed)); [|done|done].
    intros x st st'. apply page_step_well_formed.
Qed.

Lemma records_are_well_formed_witness :
  exists st,
    extract_statement 2026 (Some two_section_statement) = Ok st
    /\ length (transactions st) = 2
    /\ Forall well_formed (transactions st).
Proof.
  eexists. split; [vm_compute; reflexivity|]. split; [reflexivity|].
  apply (proj2 (proj2 (proj2 records_are_well_formed))
           2026%Z (Some two_section_statement)).
  vm_compute. reflexivity.
Defined.

(** C1, as the code has it.  The transactions of every extracted statement
    are sorted by date, and among the transactions of one date by the value
    of the category as a string: check, then deposit, then withdrawal. *)
Theorem transactions_sorted_by_date_and_value today_year file st :
  extract_statement today_year file = Ok st ->
  Sorted (in_order value_rank) (transactions st).
Proof.
  intros H. apply extract_statement_inv in H as (document & _ & _ & H).
  apply parse_inv in H as (doc & s' & sd & ed & all & _ & _ & _ & _ & ->).
  simpl. eapply Sorted_weaken; [apply not_after_in_order|].
  apply sort_Sorted. apply tx_ltb_asym.
Qed.

Lemma transactions_sorted_by_date_and_value_witness :
  exists st,
    extract_statement 2026 (Some two_section_statement) = Ok st
    /\ map transaction_type (transactions st) = [DEPOSIT; WITHDRAWAL]
    /\ Sorted (in_order value_rank) (transactions st).
Proof.
  eexists. split; [vm_compute; reflexivity|]. split; [reflexivity|].
  apply (transactions_sorted_by_date_and_value 2026%Z
           (Some two_section_statement)).
  vm_compute. reflexivity.
Defined.

(** The claim as the specification words it fails on
    [two_section_statement]: the deposit of 03/15 comes before the
    withdrawal of 03/15, against the declared order of the enumeration. *)
Lemma declared_order_counterexample :
  exists st a b,
    extract_statement 2026 (Some two_section_statement) = Ok st
    /\ transactions st = [a; b]
    /\ date a = date b
    /\ transaction_type a = DEPOSIT /\ transaction_type b = WITHDRAWAL
    /\ ~ in_order declared_rank a b
    /\ ~ Sorted (in_order declared_rank) (transactions st).
Proof.
  eexists _, _, _. split; [vm_compute; reflexivity|].
  split; [reflexivity|]. split; [reflexivity|].
  split; [reflexivity|]. split; [reflexivity|].
  assert (Hno : forall a b : Transaction,
            date a = date b -> transaction_type a = DEPOSIT ->
            transaction_type b = WITHDRAWAL -> ~ in_order declared_rank a b).
  { intros a b Hd Ha Hb [Hlt|[_ Hr]].
    - rewrite Hd in Hlt. destruct (date b) as [y m d].
      unfold datetime.ltb in Hlt. simpl in Hlt.
      rewrite !orb_true_iff, !andb_true_iff, !orb_true_iff, !andb_true_iff,
        !Z.ltb_lt in Hlt. lia.
    - rewrite Ha, Hb in Hr. simpl in Hr. lia. }
  split.
  - by apply Hno.
  - intros Hs. inversion Hs as [|x l _ Hhd]; subst.
    inversion Hhd as [|y l' Hxy]; subst. revert Hxy. by apply Hno.
Qed.

(** The loop over the pages adds nothing when no page is a transaction
    page. *)
Lemma for_each_skipped document s : forall entries acc,
  Forall (fun entry : nat * bool => entry.2 = false) entries ->
  for_each entries (TruistParser.page_step document s) acc = Ok acc.
Proof.
  induction entries as [|[n b] entries IH]; intros acc H; simpl; [done|].
  apply Forall_cons in H as [Hb H]. simpl in Hb. subst b. simpl. by apply IH.
Qed.

Lemma imap_classified (f : nat -> nat) : forall ps,
  Forall (fun page => is_transaction_page page = false) ps ->
  Forall (fun entry : nat * bool => entry.2 = false)
    (imap (fun i page => (f i, is_transaction_page page)) ps).
Proof.
  intros ps H. revert f. induction H as [|page ps Hp Hps IH]; intros f; simpl.
  - constructor.
  - constructor; [done|]. apply (IH (f ∘ S)).
Qed.

Lemma classify_pages_skipped document :
  Forall (fun page => is_transaction_page page = false) (pages document) ->
  Forall (fun entry : nat * bool => entry.2 = false) (classify_pages document).
Proof. apply (imap_classified id). Qed.

(** C3, as the code has it.  The orchestrator reports a failure when the
    file is missing and when no layout is detected.  When a layout is
    detected and no page of the document is a transaction page, it reports
    none on that account: the metadata is read, and with the period of the
    statement it returns the statement, with no transaction. *)
Theorem only_undetected_layouts_are_refused today_year document :
  extract_statement today_year None = Raise FileNotFoundError
  /\ (detect_bank document = None ->
      extract_statement today_year (Some document) = Raise ValueError)
  /\ (TruistParser.can_parse document = true ->
      Forall (fun page => is_transaction_page page = false) (pages document) ->
      exists s,
        TruistParser._extract_metadata today_year
          (TruistParser.enter document TruistParser.init) = Ok s
        /\ forall start_date end_date,
             TruistParser._extract_statement_period s
             = Ok (start_date, end_date) ->
             extract_statement today_year (Some document)
             = Ok (mkBankStatement TruistParser.bank_name
                     (TruistParser._account_number s) start_date end_date [])).
Proof.
  split_and!.
  - done.
  - intros H. unfold extract_statement. by rewrite H.
  - intros Hcan Hpages.
    destruct (extract_metadata_ok today_year
                (TruistParser.enter document TruistParser.init)) as [s Hmeta].
    exists s. split; [done|]. intros sd ed Hperiod.
    unfold extract_statement, detect_bank, BANK_PARSERS. simpl.
    rewrite Hcan. simpl. unfold TruistParser.parse. simpl.
    rewrite Hmeta. simpl. rewrite Hperiod. simpl.
    rewrite for_each_skipped; [done|]. by apply classify_pages_skipped.
Qed.

Lemma only_undetected_layouts_are_refused_witness :
  extract_statement 2026 (Some (mkPDF [mkPage (Some (txt "Some other bank"))]))
  = Raise ValueError
  /\ extract_statement 2026 (Some cover_only_statement)
     = Ok (mkBankStatement (txt "Truist") None None None []).
Proof.
  split.
  - apply (only_undetected_layouts_are_refused 2026%Z
             (mkPDF [mkPage (Some (txt "Some other bank"))])).
    vm_compute. reflexivity.
  - destruct (proj2 (proj2 (only_undetected_layouts_are_refused 2026%Z
                              cover_only_statement)))
      as (s & Hs & H).
    + vm_compute. reflexivity.
    + repeat constructor.
    + vm_compute in Hs. injection Hs as <-.
      apply (H None None). vm_compute. reflexivity.
Defined.

(** The claim as the specification words it fails on
    [cover_only_statement]: the layout is detected, no page is a
    transaction page, and an empty statement is returned. *)
Lemma empty_statement_counterexample :
  detect_bank cover_only_statement <> None
  /\ Forall (fun page => is_transaction_page page = false)
       (pages cover_only_statement)
  /\ extract_statement 2026 (Some cover_only_statement)
     = Ok (mkBankStatement (txt "Truist") None None None []).
Proof.
  split_and!.
  - assert (H : TruistParser.can_parse cover_only_statement = true)
      by (vm_compute; reflexivity).
    unfold detect_bank. cbn [BANK_PARSERS List.find Truist parser_can_parse].
    by rewrite H.
  - repeat constructor.
  - vm_compute. reflexivity.
Qed.

(** * The round trip of one line *)

(** A table header and one withdrawal. *)
Definition withdrawals_block : str :=
  txt "DATE DESCRIPTION AMOUNT
03/15 ACME CORP PAYMENT  123.45
".

Lemma parse_date_03_15 year :
  (1 <= year <= 9999)%Z ->
  parse_date (txt "03/15") year = Ok (datetime.mkdate year 3 15).
Proof.
  intros Hy. unfold parse_date.
  replace (Str.split "/" (txt "03/15")) with [txt "03"; txt "15"]
    by (vm_compute; reflexivity).
  replace (int (txt "03")) with (Ok 3%Z) by (vm_compute; reflexivity).
  replace (int (txt "15")) with (Ok 15%Z) by (vm_compute; reflexivity).
  cbn [bind]. unfold datetime.new.
  change (datetime.days_in_month year 3) with 31%Z.
  replace (datetime.c_int year) with true
    by (symmetry; unfold datetime.c_int; apply andb_true_iff;
        rewrite !Z.leb_le; lia).
  replace (1 <=? year)%Z with true by (symmetry; apply Z.leb_le; lia).
  replace (year <=? 9999)%Z with true by (symmetry; apply Z.leb_le; lia).
  done.
Qed.

(** C8, as the code has it.  For every year from 1 to 9999, the years a
    [date] has, parsing the block of a table header and the line
    [03/15 ACME CORP PAYMENT  123.45] as withdrawals yields exactly one
    transaction: dated March 15 of that year, described
    [ACME CORP PAYMENT], of amount 123.45 and category WITHDRAWAL. *)
Theorem one_line_round_trip year :
  (1 <= year <= 9999)%Z ->
  _extract_transactions_from_text withdrawals_block year WITHDRAWAL
  = Ok [mkTransaction (datetime.mkdate year 3 15) (txt "ACME CORP PAYMENT")
          (decimal.Finite false 12345 (-2)) WITHDRAWAL None None false false].
Proof.
  intros Hy.
  rewrite extract_transactions_ok
    by (unfold datetime.c_int; apply andb_true_iff; rewrite !Z.leb_le; lia).
  replace (Str.split NL withdrawals_block)
    with [txt "DATE DESCRIPTION AMOUNT";
          txt "03/15 ACME CORP PAYMENT  123.45"; []]
    by (vm_compute; reflexivity).
  cbn [flat_map].
  replace (line_records year WITHDRAWAL (txt "DATE DESCRIPTION AMOUNT"))
    with (@nil Transaction) by (vm_compute; reflexivity).
  replace (line_records year WITHDRAWAL []) with (@nil Transaction)
    by (vm_compute; reflexivity).
  rewrite (kept_line year WITHDRAWAL (txt "03/15 ACME CORP PAYMENT  123.45")
             (mkMatch 0 31 [(3, (25, 31)); (2, (6, 23)); (1, (0, 5))])
             (txt "03/15") (txt "ACME CORP PAYMENT") (txt "123.45")
             (datetime.mkdate year 3 15) (decimal.Finite false 12345 (-2)));
    [reflexivity | | | | | | | | by apply parse_date_03_15 | | ];
    vm_compute; reflexivity.
Qed.

Lemma one_line_round_trip_witness :
  _extract_transactions_from_text withdrawals_block 2025 WITHDRAWAL
  = Ok [mkTransaction (datetime.mkdate 2025 3 15) (txt "ACME CORP PAYMENT")
          (decimal.Finite false 12345 (-2)) WITHDRAWAL None None false false].
Proof. apply (one_line_round_trip 2025%Z). lia. Defined.

(** The claim as the specification words it, for every year, fails at the
    years no [date] has: the line is passed over.  Year 0 is the year the
    metadata of a page dated [For 01/01/0000] gives. *)
Lemma yearless_round_trip_counterexample :
  _extract_transactions_from_text withdrawals_block 0 WITHDRAWAL = Ok []
  /\ _extract_transactions_from_text withdrawals_block 10000 WITHDRAWAL = Ok []
  /\ TruistParser._extract_metadata 2026
       (TruistParser.enter (mkPDF [mkPage (Some (txt "Truist For 01/01/0000"))])
          TruistParser.init)
     = Ok (TruistParser.mkself
             (Some (mkPDF [mkPage (Some (txt "Truist For 01/01/0000"))]))
             (Some 0%Z) None).
Proof. split_and!; vm_compute; reflexivity. Qed.

(** * Continuation pages *)


(** A continuation page whose table has a line with a keyword of either
    kind. *)
Definition mixed_continuation_page : Page :=
  mkPage (Some (txt "Account activity (continued)
DATE DESCRIPTION AMOUNT
03/15 ZELLE DEPOSIT REVERSAL  25.00
")).






(** C10. There is a continuation page with a table header, no section
    header and no total, whose window has a withdrawal keyword and a
    deposit keyword, on which the withdrawals extractor and the deposits
    extractor select the same span: the line of the span is emitted twice,
    once as a WITHDRAWAL and once as a DEPOSIT. *)
Theorem mixed_window_is_extracted_twice :
  exists page table_header start end_ d desc a,
    let text := text_of page in
    is_continuation text = true
    /\ re_search true TABLE_HEADER text = Some table_header
    /\ map_to_list (_find_section_markers text) = []
    /\ any_in withdrawal_indicators (window text table_header) = true
    /\ any_in deposit_indicators (window text table_header) = true
    /\ start < end_
    /\ withdrawals_span text = Some (start, end_)
    /\ deposits_span text = Some (start, end_)
    /\ extract_withdrawals_from_page page 2025
       = Ok [mkTransaction d desc a WITHDRAWAL None None false false]
    /\ extract_deposits_from_page page 2025
       = Ok [mkTransaction d desc a DEPOSIT None None false false].
Proof.
  exists mixed_continuation_page, (mkMatch 29 52 []), 52, 89,
    (datetime.mkdate 2025 3 15), (txt "ZELLE DEPOSIT REVERSAL"),
    (decimal.Finite false 2500 (-2)).
  cbv zeta. split_and!; try (vm_compute; reflexivity). lia.
Qed.

(** * The patterns, and the examples of the specification *)

(** Every pattern of the program is within the syntax [re_compile] reads. *)
Lemma patterns_compile :
  Forall (fun r => r <> RFail)
    [CHECKS_HEADER; CHECKS_END; check_pattern; line_pattern; TABLE_HEADER;
     WITHDRAW_HEADER; DEPOSIT_HEADER; TOTAL_WITHDRAW; TOTAL_DEPOSIT;
     WITHDRAW_PAGE_END; DEPOSIT_PAGE_END; date_amount_pattern;
     TruistParser.STATEMENT_DATE; TruistParser.ANY_YEAR; TruistParser.ACCOUNT;
     TruistParser.PERIOD_START; TruistParser.PERIOD_END]
  /\ Forall (fun p => re_compile p <> RFail)
       (TRANSACTION_INDICATORS ++ BOILERPLATE_INDICATORS).
Proof. split; repeat constructor; vm_compute; discriminate. Qed.

(** A check line yields one CHECK with its number. *)
Example check_line :
  extract_checks_from_page
    (mkPage (Some (txt "Checks
DATE CHECK # AMOUNT
03/02 *1042  250.00
Total checks = $250.00"))) 2025
  = Ok [mkTransaction (datetime.mkdate 2025 3 2) (txt "Check #1042")
          (decimal.Finite false 25000 (-2)) CHECK (Some 1042%Z)
          None false false].
Proof. vm_compute. reflexivity. Qed.

(** A line whose description is shorter than three characters is dropped. *)
Example short_description_dropped :
  _extract_transactions_from_text (txt "03/02 ab 5.00") 2025 WITHDRAWAL = Ok [].
Proof. vm_compute. reflexivity. Qed.

(** A two-digit statement year is in this century, and a page without a
    year gives the current year. *)
Example two_digit_year :
  TruistParser._extract_metadata 2026
    (TruistParser.mkself (Some (mkPDF [mkPage (Some (txt "For 10/31/25"))]))
       None None)
  = Ok (TruistParser.mkself (Some (mkPDF [mkPage (Some (txt "For 10/31/25"))]))
          (Some 2025%Z) None)
  /\ TruistParser._extract_metadata 2026
       (TruistParser.mkself (Some (mkPDF [mkPage (Some (txt "Truist"))]))
          None None)
     = Ok (TruistParser.mkself (Some (mkPDF [mkPage (Some (txt "Truist"))]))
             (Some 2026%Z) None).
Proof. split; vm_compute; reflexivity. Qed.

(** * Further properties of the assembler *)

(** The records of a result, none when it is an exception. *)
Definition records_of (r : result (list Transaction)) : list Transaction :=
  match r with
  | Ok records => records
  | Raise _ => []
  end.

(** What one page adds to a statement: its checks, its withdrawals and its
    deposits, in that order. *)
Definition page_records (year : Z) (page : Page) : list Transaction :=
  records_of (extract_checks_from_page page year)
  ++ records_of (extract_withdrawals_from_page page year)
  ++ records_of (extract_deposits_from_page page year).

(** What the pages of a document add: the records of its transaction pages,
    in the order of the pages. *)
Definition document_records (year : Z) (document : PDF) : list Transaction :=
  flat_map
    (fun page => if is_transaction_page page then page_records year page else [])
    (pages document).

(** [d] is a day of the calendar. *)
Definition calendar_day (d : datetime.date) : Prop :=
  (1 <= datetime.year d <= 9999
   /\ 1 <= datetime.month d <= 12
   /\ 1 <= datetime.day d
      <= datetime.days_in_month (datetime.year d) (datetime.month d))%Z.

(** [statement.summary()]. *)
Record Summary : Set := mkSummary {
  summary_bank_name : str;
  total_transactions : nat;
  summary_checks : nat;
  summary_withdrawals : nat;
  summary_deposits : nat
}.

Definition summary (s : BankStatement) : Summary :=
  mkSummary (bank_name s) (length (transactions s))
    (length (checks s)) (length (withdrawals s)) (length (deposits s)).




(** Whatever the year, what a turn returns is what the page adds. *)
Lemma page_step_inv document s n b page year acc out :
  pages document !! n = Some page ->
  TruistParser._year s = Some year ->
  TruistParser.page_step document s (n, b) acc = Ok out ->
  out = acc ++ if b then page_records year page else [].
Proof.
  intros Hpage Hyear. unfold TruistParser.page_step, page_records.
  destruct b; simpl; [|intros [= <-]; by rewrite app_nil_r].
  rewrite Hpage, Hyear. simpl.
  destruct (extract_checks_from_page page year) as [cs|]; simpl; [|done].
  destruct (extract_withdrawals_from_page page year) as [ws|]; simpl; [|done].
  destruct (extract_deposits_from_page page year) as [ds|]; simpl; [|done].
  by intros [= <-].
Qed.


Lemma for_each_pages_inv document s year (f : nat -> nat) : forall ps acc out,
  (forall i page, ps !! i = Some page -> pages document !! f i = Some page) ->
  TruistParser._year s = Some year ->
  for_each (imap (fun i page => (f i, is_transaction_page page)) ps)
    (TruistParser.page_step document s) acc = Ok out ->
  out = acc ++ flat_map
          (fun page =>
             if is_transaction_page page then page_records year page else [])
          ps.
Proof.
  intros ps. revert f.
  induction ps as [|page ps IH]; intros f acc out Hf Hyear.
  - simpl. intros [= <-]. by rewrite app_nil_r.
  - cbn [imap for_each flat_map].
    destruct (TruistParser.page_step document s
                (f 0, is_transaction_page page) acc) as [acc1|] eqn:E;
      cbn [bind]; [|done].
    apply (page_step_inv document s (f 0) _ page year) in E as ->; auto.
    intros Hout. apply (IH (f ∘ S)) in Hout as ->;
      [by rewrite <- app_assoc| |done].
    intros i p Hp. apply (Hf (S i)). done.
Qed.


Lemma classified_pages_inv document s year out :
  TruistParser._year s = Some year ->
  for_each (classify_pages document) (TruistParser.page_step document s) []
  = Ok out ->
  out = document_records year document.
Proof.
  intros Hyear H. unfold classify_pages in H.
  by apply (for_each_pages_inv document s year id) in H.
Qed.

(** What [_extract_metadata] leaves in the parser: the document, and a year
    when the document has a page. *)
Lemma extract_metadata_inv today_year document s :
  TruistParser._extract_metadata today_year
    (TruistParser.enter document TruistParser.init) = Ok s ->
  TruistParser.pdf s = Some document
  /\ (pages document <> [] -> is_Some (TruistParser._year s)).
Proof.
  unfold TruistParser._extract_metadata. simpl.
  destruct (pages document) as [|first rest].
  - by intros [= <-].
  - match goal with
    | |- bind ?y _ = _ -> _ => destruct y as [year|]; simpl; [|done]
    end.
    intros [= <-]. simpl. split; [done|]. eauto.
Qed.

Lemma can_parse_pages document :
  TruistParser.can_parse document = true -> pages document <> [].
Proof. unfold TruistParser.can_parse. by destruct (pages document). Qed.










Lemma insert_before_Permutation {A} (lt : A -> A -> bool) x l :
  insert_before lt x l ≡ₚ x :: l.
Proof.
  induction l as [|y l IH]; simpl; [done|].
  destruct (lt y x); [|done]. rewrite IH. apply Permutation_swap.
Qed.

Lemma sort_Permutation {A} (lt : A -> A -> bool) l : sort lt l ≡ₚ l.
Proof.
  induction l as [|x l IH]; simpl; [done|].
  rewrite insert_before_Permutation. by rewrite IH.
Qed.

(** What a statement that [extract_statement] returns is made of. *)
Lemma extract_statement_ok_inv today_year file st :
  extract_statement today_year file = Ok st ->
  exists document s year,
    file = Some document
    /\ TruistParser._extract_metadata today_year
         (TruistParser.enter document TruistParser.init) = Ok s
    /\ TruistParser._year s = Some year
    /\ transactions st
       = sort TruistParser.tx_ltb (document_records year document).
Proof.
  intros H.
  destruct (extract_statement_inv _ _ _ H) as (document & -> & Hcan & Hp).
  apply parse_inv in Hp
    as (doc & s & sd & ed & all & Hdoc & Hmeta & _ & Hall & ->).
  simpl in Hdoc. injection Hdoc as <-.
  destruct (extract_metadata_inv _ _ _ Hmeta) as [_ Hyear].
  destruct (Hyear (can_parse_pages _ Hcan)) as [year Hy].
  exists document, s, year. split_and!; try done. simpl.
  by rewrite (classified_pages_inv document s year all Hy Hall).
Qed.

(** X2. The transactions of an extracted statement are the records of the
    transaction pages of the document, rearranged: for each page the
    checks, the withdrawals and the deposits that the three extractors find
    on it.  No record is dropped, none is merged with its like, and a page
    that is no transaction page contributes none. *)
Theorem statement_keeps_every_record today_year file st :
  extract_statement today_year file = Ok st ->
  exists document s year,
    file = Some document
    /\ TruistParser._extract_metadata today_year
         (TruistParser.enter document TruistParser.init) = Ok s
    /\ TruistParser._year s = Some year
    /\ transactions st ≡ₚ document_records year document.
Proof.
  intros H.
  apply extract_statement_ok_inv in H as (document & s & year & -> & ? & ? & ->).
  exists document, s, year. split_and!; [done..|]. apply sort_Permutation.
Qed.

(** A statement whose only page prints the same check twice. *)
Definition reprinted_check_statement : PDF :=
  mkPDF [mkPage (Some (txt "Truist Bank statement
For 10/31/2025
CHECKING 1340006375358
Checks
DATE CHECK # AMOUNT
03/02 *1042  250.00
03/02 *1042  250.00
Total checks = $500.00
"))].

Lemma statement_keeps_every_record_witness :
  exists st,
    extract_statement 2026 (Some reprinted_check_statement) = Ok st
    /\ length (transactions st) = 2
    /\ transactions st ≡ₚ document_records 2025 reprinted_check_statement.
Proof.
  eexists. split; [vm_compute; reflexivity|]. split; [reflexivity|].
  destruct (statement_keeps_every_record 2026%Z (Some reprinted_check_statement)
              _ ltac:(vm_compute; reflexivity))
    as (document & s & year & Hd & Hs & Hy & Hp).
  injection Hd as <-. vm_compute in Hs. injection Hs as <-.
  injection Hy as <-. exact Hp.
Defined.

Lemma date_new_ok y m d dt :
  datetime.new y m d = Ok dt ->
  dt = datetime.mkdate y m d /\ calendar_day dt.
Proof.
  unfold datetime.new.
  destruct (negb _); [done|].
  destruct (_ && _) eqn:E; [|done]. intros [= <-]. split; [done|].
  rewrite !andb_true_iff, !Z.leb_le in E. unfold calendar_day. simpl. lia.
Qed.

(** A date that [parse_date] returns is a day of the calendar, of the year
    it was given. *)
Lemma parse_date_ok date_str year dt :
  parse_date date_str year = Ok dt ->
  datetime.year dt = year /\ calendar_day dt.
Proof.
  unfold parse_date.
  destruct (Str.split "/" date_str) as [|month [|day [|]]]; try done.
  destruct (int month) as [m|]; simpl; [|done].
  destruct (int day) as [d|]; simpl; [|done].
  intros H. apply date_new_ok in H as [-> H]. done.
Qed.

(** The dated records: those of the year [year], on a day of the
    calendar. *)
Definition dated (year : Z) (t : Transaction) : Prop :=
  datetime.year (date t) = year /\ calendar_day (date t).

Lemma line_step_dated year ty line acc acc' :
  line_step year ty line acc = Ok acc' ->
  Forall (dated year) acc -> Forall (dated year) acc'.
Proof.
  unfold line_step. cbv zeta.
  repeat (case_match; [by intros [= <-]|]).
  destruct (re_match false line_pattern (Str.strip line)) as [m|];
    [|by intros [= <-]].
  destruct (groups3 (Str.strip line) m) as [[[ds desc] am]|]; simpl; [|done].
  case_match; [by intros [= <-]|].
  destruct (parse_date ds year) as [d|e] eqn:Ed; cbn [bind].
  2:{ unfold catch. case_match; [by intros [= <-]|done]. }
  destruct (parse_amount am) as [a|e] eqn:Ea; simpl.
  2:{ apply parse_amount_raises in Ea as ->. by intros [= <-]. }
  unfold Transaction_new. destruct (decimal.nonneg a); simpl;
    [|by intros [= <-]].
  intros [= <-] Hacc. apply Forall_app. split; [done|].
  constructor; [|done]. by apply parse_date_ok in Ed.
Qed.

Lemma check_step_dated checks_text year m acc acc' :
  check_step checks_text year m acc = Ok acc' ->
  Forall (dated year) acc -> Forall (dated year) acc'.
Proof.
  unfold check_step.
  destruct (groups3 checks_text m) as [[[ds n] am]|]; cbn [bind]; [|done].
  destruct (parse_date ds year) as [d|e] eqn:Ed; cbn [bind].
  2:{ unfold catch. case_match; [by intros [= <-]|done]. }
  cbn [catch].
  destruct (parse_amount am) as [a|e] eqn:Ea; cbn [bind catch].
  2:{ apply parse_amount_raises in Ea as ->. by intros [= <-]. }
  destruct (int n) as [num|e] eqn:En; cbn [bind catch].
  2:{ apply int_raises in En as ->. by intros [= <-]. }
  unfold Transaction_new. destruct (decimal.nonneg a); cbn [bind catch];
    [|by intros [= <-]].
  intros [= <-] Hacc. apply Forall_app. split; [done|].
  constructor; [|done]. by apply parse_date_ok in Ed.
Qed.

Lemma page_records_dated year page : Forall (dated year) (page_records year page).
Proof.
  unfold page_records. rewrite !Forall_app. split_and!.
  - unfold extract_checks_from_page.
    destruct (checks_span (text_of page)) as [[a b]|]; [|done].
    destruct (for_each _ _ _) as [recs|] eqn:E; [|done]. simpl.
    eapply (for_each_invariant (Forall (dated year))); [|exact E|done].
    intros m st st'. apply check_step_dated.
  - unfold extract_withdrawals_from_page.
    destruct (withdrawals_span (text_of page)) as [[a b]|]; [|done].
    unfold _extract_transactions_from_text.
    destruct (for_each _ _ _) as [recs|] eqn:E; [|done]. simpl.
    eapply (for_each_invariant (Forall (dated year))); [|exact E|done].
    intros m st st'. apply line_step_dated.
  - unfold extract_deposits_from_page.
    destruct (deposits_span (text_of page)) as [[a b]|]; [|done].
    unfold _extract_transactions_from_text.
    destruct (for_each _ _ _) as [recs|] eqn:E; [|done]. simpl.
    eapply (for_each_invariant (Forall (dated year))); [|exact E|done].
    intros m st st'. apply line_step_dated.
Qed.

(** X3. Every transaction of an extracted statement is dated on a day of
    the calendar, in the one year that the metadata of the first page gave:
    the lines of a statement carry a month and a day only, and a statement
    that runs over the turn of a year has all its transactions in that one
    year. *)
Theorem transactions_are_of_the_statement_year today_year file st :
  extract_statement today_year file = Ok st ->
  exists document s year,
    file = Some document
    /\ TruistParser._extract_metadata today_year
         (TruistParser.enter document TruistParser.init) = Ok s
    /\ TruistParser._year s = Some year
    /\ Forall (fun t => datetime.year (date t) = year /\ calendar_day (date t))
         (transactions st).
Proof.
  intros H.
  apply extract_statement_ok_inv in H as (document & s & year & -> & ? & ? & ->).
  exists document, s, year. split_and!; [done..|].
  apply sort_Forall. unfold document_records.
  induction (pages document) as [|page ps IH]; simpl; [done|].
  apply Forall_app. split; [|done].
  destruct (is_transaction_page page); [apply page_records_dated|done].
Qed.

(** A statement of December whose deposits run into January. *)
Definition year_end_statement : PDF :=
  mkPDF [mkPage (Some (txt "Truist Bank statement
For 01/15/2026
CHECKING 1340006375358
Deposits, credits and interest
DATE DESCRIPTION AMOUNT
12/30 PAYROLL DEPOSIT  20.00
01/02 PAYROLL DEPOSIT  20.00
Total deposits, credits and interest = $40.00
"))].

Lemma transactions_are_of_the_statement_year_witness :
  exists st,
    extract_statement 2026 (Some year_end_statement) = Ok st
    /\ map (fun t => datetime.month (date t)) (transactions st) = [1; 12]%Z
    /\ Forall (fun t => datetime.year (date t) = 2026%Z /\ calendar_day (date t))
         (transactions st).
Proof.
  eexists. split; [vm_compute; reflexivity|]. split; [reflexivity|].
  destruct (transactions_are_of_the_statement_year 2026%Z
              (Some year_end_statement) _ ltac:(vm_compute; reflexivity))
    as (document & s & year & Hd & Hs & Hy & Hp).
  injection Hd as <-. vm_compute in Hs. injection Hs as <-.
  injection Hy as <-. exact Hp.
Defined.

(** X4. The three counts of [summary()] add up to its total: every
    transaction of a statement is a check, a withdrawal or a deposit, and
    is counted once. *)
Theorem summary_counts_add_up s :
  total_transactions (summary s)
  = summary_checks (summary s) + summary_withdrawals (summary s)
    + summary_deposits (summary s).
Proof.
  unfold summary, checks, withdrawals, deposits. simpl.
  induction (transactions s) as [|t ts IH]; [done|].
  rewrite !filter_cons. simpl. rewrite IH.
  destruct (transaction_type t); repeat case_decide; simplify_eq; simpl; lia.
Qed.

(** * Further properties of the matcher: where a match stands *)

(** A match that begins after [pre] is a string [w] of the pattern that
    follows [pre] in the text; it starts where [w] starts and ends where
    [w] ends. *)
Lemma match_at_extent ic r (pre s : str) m :
  anchor_free r = true ->
  match_at ic r (length pre) s = Some m ->
  exists w post,
    s = w ++ post /\ denote ic r w = true
    /\ m_start m = length pre /\ m_end m = length pre + length w.
Proof.
  intros Haf H. unfold match_at in H.
  apply (run_sound (pre ++ s) ic r r Haf (fun x Hx => Hx) pre s [] _ _ eq_refl)
    in H as (w & s' & caps' & -> & Hd & _ & H).
  - unfold finish in H. inversion H; subst m. simpl. by exists w, s'.
  - intros i a b Hi. by apply elem_of_nil in Hi.
Qed.

Lemma search_from_extent ic r : forall (s pre : str) m,
  anchor_free r = true ->
  search_from ic r (length pre) s = Some m ->
  exists skipped w post,
    s = skipped ++ w ++ post /\ denote ic r w = true
    /\ m_start m = length pre + length skipped
    /\ m_end m = length pre + length skipped + length w.
Proof.
  induction s as [|c s IH]; intros pre m Haf H;
    rewrite search_from_unfold in H.
  - destruct (match_at ic r (length pre) []) eqn:E; [|done].
    inversion H; subst.
    apply match_at_extent in E as (w & post & Hs & Hd & Hst & Hen); [|done].
    exists [], w, post. simpl. split_and!; try done; lia.
  - destruct (match_at ic r (length pre) (c :: s)) eqn:E.
    + inversion H; subst.
      apply match_at_extent in E as (w & post & Hs & Hd & Hst & Hen); [|done].
      exists [], w, post. simpl. split_and!; try done; lia.
    + replace (S (length pre)) with (length (pre ++ [c])) in H
        by (rewrite length_app; simpl; lia).
      apply IH in H as (sk & w & post & -> & Hd & Hst & Hen); [|done].
      rewrite length_app in Hst, Hen. simpl in Hst, Hen.
      exists (c :: sk), w, post. simpl. split_and!; try done; lia.
Qed.

(** What [re.search] finds in a text is a string of the pattern between a
    part before and a part after, and the match says where. *)
Lemma search_extent ic r text m :
  anchor_free r = true ->
  re_search ic r text = Some m ->
  exists pre w post,
    text = pre ++ w ++ post /\ denote ic r w = true
    /\ m_start m = length pre /\ m_end m = length pre + length w.
Proof.
  intros Haf H. apply (search_from_extent ic r text [] m Haf) in H.
  destruct H as (sk & w & post & -> & Hd & Hst & Hen).
  exists sk, w, post. simpl in *. done.
Qed.

(** The matches of [re.finditer] stand in the text they were found in. *)
Lemma finditer_from_extent ic r : forall (s pre : str) skip,
  anchor_free r = true ->
  Forall (fun m => m_start m <= m_end m /\ m_end m <= length pre + length s)
    (finditer_from ic r (length pre) s skip).
Proof.
  induction s as [|c s IH]; intros pre skip Haf.
  - destruct skip; simpl; [|done].
    destruct (match_at ic r (length pre) []) eqn:E; [|done].
    constructor; [|done].
    apply match_at_extent in E as (w & post & Hs & _ & -> & ->); [|done].
    apply (f_equal length) in Hs. rewrite length_app in Hs. simpl in *. lia.
  - assert (Hrest : forall skip',
      Forall (fun m => m_start m <= m_end m
                       /\ m_end m <= length pre + length (c :: s))
        (finditer_from ic r (S (length pre)) s skip')).
    { intros skip'.
      replace (S (length pre)) with (length (pre ++ [c]))
        by (rewrite length_app; simpl; lia).
      eapply Forall_impl; [by apply IH|]. intros m. simpl.
      rewrite length_app. simpl. lia. }
    destruct skip; simpl; [|apply Hrest].
    destruct (match_at ic r (length pre) (c :: s)) eqn:E; [|apply Hrest].
    constructor; [|apply Hrest].
    apply match_at_extent in E as (w & post & Hs & _ & -> & ->); [|done].
    apply (f_equal length) in Hs. rewrite length_app in Hs. simpl in *. lia.
Qed.

Lemma finditer_extent ic r text :
  anchor_free r = true ->
  Forall (fun m => m_start m <= m_end m /\ m_end m <= length text)
    (re_finditer ic r text).
Proof. intros Haf. apply (finditer_from_extent ic r text [] 0 Haf). Qed.

(** [re.search] finds a match exactly in the texts that contain a string
    of the pattern. *)
Lemma found_iff_appears pattern text :
  anchor_free (re_compile pattern) = true ->
  found text pattern = true <-> appears pattern text.
Proof.
  intros Haf. split; [|apply found_appears].
  unfold found. intros H. apply bool_decide_eq_true in H as [m Hm].
  apply search_extent in Hm as (pre & w & post & -> & Hd & _); [|done].
  by exists pre, w, post.
Qed.

Lemma any_found_iff patterns text :
  Forall (fun p => anchor_free (re_compile p) = true) patterns ->
  existsb (found text) patterns = true
  <-> exists pattern, pattern ∈ patterns /\ appears pattern text.
Proof.
  intros Haf. rewrite existsb_exists. rewrite Forall_forall in Haf.
  split.
  - intros (p & Hin & Hf). apply list_elem_of_In in Hin. exists p.
    split; [done|]. apply found_iff_appears; auto.
  - intros (p & Hin & Ha). exists p. split; [by apply list_elem_of_In|].
    apply found_iff_appears; auto.
Qed.

Lemma indicators_anchor_free :
  Forall (fun p => anchor_free (re_compile p) = true) BOILERPLATE_INDICATORS
  /\ Forall (fun p => anchor_free (re_compile p) = true) TRANSACTION_INDICATORS.
Proof. split; repeat constructor. Qed.

(** * Further properties of the page classifier *)

(** X5. A page is a transaction page exactly when no boilerplate marker
    appears in its text, the stripped text has at least 100 characters, and
    a transaction marker appears in it or it holds at least three matches
    of the date-and-amount pattern.  Markers are looked for with the case
    ignored, anywhere in the text. *)
Theorem transaction_page_iff page :
  is_transaction_page page = true
  <-> (forall pattern, pattern ∈ BOILERPLATE_INDICATORS ->
         ~ appears pattern (text_of page))
      /\ 100 <= length (Str.strip (text_of page))
      /\ ((exists pattern, pattern ∈ TRANSACTION_INDICATORS
                           /\ appears pattern (text_of page))
          \/ 3 <= length (re_finditer false date_amount_pattern (text_of page))).
Proof.
  destruct indicators_anchor_free as [Hb Ht].
  unfold is_transaction_page. cbv zeta.
  destruct (existsb (found (text_of page)) BOILERPLATE_INDICATORS) eqn:Eb.
  { apply any_found_iff in Eb as (p & Hin & Ha); [|done].
    split; [done|]. intros (Hno & _). by destruct (Hno p Hin). }
  assert (Hno : forall pattern, pattern ∈ BOILERPLATE_INDICATORS ->
                  ~ appears pattern (text_of page)).
  { intros p Hin Ha. apply not_true_iff_false in Eb. apply Eb.
    apply any_found_iff; [done|]. by exists p. }
  destruct (length (Str.strip (text_of page)) <? 100)%nat eqn:El.
  { apply Nat.ltb_lt in El. split; [done|]. intros (_ & Hlen & _). lia. }
  apply Nat.ltb_ge in El.
  destruct (existsb (found (text_of page)) TRANSACTION_INDICATORS) eqn:Et.
  { apply any_found_iff in Et; [|done]. split; [|done]. intros _.
    split_and!; [done..|]. by left. }
  rewrite Nat.leb_le. split.
  - intros H. split_and!; [done..|]. by right.
  - intros (_ & _ & [H|H]); [|done].
    apply any_found_iff in H; [|done]. by rewrite H in Et.
Qed.

(** * Further properties of the detector *)

Lemma starts_with_prefix (p s : str) :
  Str.starts_with p s = true <-> exists post, s = p ++ post.
Proof.
  revert s. induction p as [|x p IH]; intros s; simpl.
  - split; [by exists s|done].
  - destruct s as [|y s]; [split; [done|by intros [post H]]|].
    unfold Char.eqb. rewrite andb_true_iff, Ascii.eqb_eq, IH. split.
    + intros [-> [post ->]]. by exists post.
    + intros [post [= -> ->]]. split; [done|by exists post].
Qed.

(** [needle in hay] holds exactly when [hay] is [needle] between a part
    before and a part after. *)
Lemma contains_infix (needle hay : str) :
  Str.contains needle hay = true
  <-> exists pre post, hay = pre ++ needle ++ post.
Proof.
  induction hay as [|c hay IH].
  - simpl. rewrite orb_false_r, starts_with_prefix. split.
    + intros [post H]. by exists [], post.
    + intros (pre & post & H). destruct pre; [by exists post|done].
  - cbn [Str.contains]. rewrite orb_true_iff, starts_with_prefix, IH. split.
    + intros [[post H]|(pre & post & ->)]; [by exists [], post|].
      by exists (c :: pre), post.
    + intros ([|x pre] & post & H); [left; by exists post|].
      right. injection H as -> ->. by exists pre, post.
Qed.

(** X6. A document is detected as a Truist statement exactly when it has a
    first page whose text, in lower case, contains [truist]: only the first
    page is read, the case of the letters does not matter, and the letters
    may stand inside a longer word.  The parser detected is the Truist
    parser. *)
Theorem detection_reads_first_page document :
  (detect_bank document <> None
   <-> exists first rest pre post,
         pages document = first :: rest
         /\ Str.lower (text_of first) = pre ++ txt "truist" ++ post)
  /\ (forall parser_class,
        detect_bank document = Some parser_class ->
        parser_name parser_class = txt "Truist").
Proof.
  unfold detect_bank. cbn [BANK_PARSERS List.find Truist parser_can_parse].
  unfold TruistParser.can_parse. split.
  - destruct (pages document) as [|first rest].
    + split; [done|]. by intros (? & ? & ? & ? & ? & _).
    + cbv zeta.
      destruct (Str.contains (txt "truist") (Str.lower (text_of first))) eqn:E.
      * split; [|done]. intros _. apply contains_infix in E as (pre & post & E).
        by exists first, rest, pre, post.
      * split; [done|]. intros (f & r & pre & post & [= <- <-] & H).
        apply not_true_iff_false in E. destruct E. apply contains_infix.
        by exists pre, post.
  - intros parser_class. case_match; [|done]. by intros [= <-].
Qed.

(** * Further properties of the section markers *)

(** Membership of a key in a list of keys written out, as a goal or as a
    hypothesis. *)
Ltac key_in := apply list_elem_of_In; simpl; tauto.
Ltac key_out H :=
  apply list_elem_of_In in H; simpl in H; intuition (discriminate || congruence).

(** The keys a marker dictionary can hold. *)
Definition marker_keys : list string :=
  ["withdraw_header"; "withdraw_table"; "deposit_header"; "deposit_table";
   "total_withdraw"; "total_deposit"].

(** A header key and the key of its table are set together, the header
    before the end of the table header, within [len]. *)
Definition paired (len : nat) (markers : gmap string nat)
    (header table : string) : Prop :=
  match markers !! header, markers !! table with
  | None, None => True
  | Some h, Some t => h <= t <= len
  | _, _ => False
  end.

(** What holds of the markers while the table headers are gone through. *)
Definition headers_inv (len : nat) (markers : gmap string nat) : Prop :=
  paired len markers "withdraw_header" "withdraw_table"
  /\ paired len markers "deposit_header" "deposit_table"
  /\ forall key, is_Some (markers !! key) ->
       key ∈ ["withdraw_header"; "withdraw_table";
              "deposit_header"; "deposit_table"].

Lemma prefix_length (text : str) a :
  length (Str.slice (Nat.max 0 (a - 100)) a text) <= a.
Proof. unfold Str.slice. rewrite length_take. lia. Qed.

Lemma search_start_bound ic r (text : str) m :
  anchor_free r = true ->
  re_search ic r text = Some m -> m_start m <= length text.
Proof.
  intros Haf H. apply search_extent in H as (pre & w & post & -> & _ & -> & _);
    [|done].
  rewrite length_app. lia.
Qed.

Lemma header_step_inv text markers th :
  m_start th <= m_end th <= length text ->
  headers_inv (length text) markers ->
  headers_inv (length text) (header_step text markers th).
Proof.
  intros Hth Hinv. unfold header_step.
  set (prefix := Str.slice (Nat.max 0 (m_start th - 100)) (m_start th) text).
  assert (Hp : length prefix <= m_start th) by apply prefix_length.
  assert (Hw : headers_inv (length text)
    match re_search true WITHDRAW_HEADER prefix with
    | Some withdraw_match =>
        if negb (has_key "withdraw_header" markers) then
          if negb (Str.contains (txt "total")
                     (Str.lower
                        (Str.slice (Nat.max 0 (m_start withdraw_match - 10))
                           (m_start withdraw_match) prefix)))
          then <["withdraw_table" := m_end th]>
                 (<["withdraw_header" :=
                      m_start th - length prefix + m_start withdraw_match]>
                    markers)
          else markers
        else markers
    | None => markers
    end).
  { destruct (re_search true WITHDRAW_HEADER prefix) as [wm|] eqn:Ew; [|done].
    apply search_start_bound in Ew; [|done].
    destruct (has_key "withdraw_header" markers) eqn:Ek; [done|].
    simpl. case_match; [|done].
    apply bool_decide_eq_false in Ek.
    destruct Hinv as (Hpw & Hpd & Hkeys).
    unfold headers_inv, paired in *.
    destruct (markers !! "withdraw_header") eqn:E1; [by destruct Ek|].
    destruct (markers !! "withdraw_table") eqn:E2; [done|].
    split_and!.
    - rewrite lookup_insert_ne, lookup_insert_eq, lookup_insert_eq by done. lia.
    - by rewrite !lookup_insert_ne by done.
    - intros key [v Hv].
      destruct (decide (key = "withdraw_table")) as [->|]; [key_in|].
      destruct (decide (key = "withdraw_header")) as [->|]; [key_in|].
      rewrite !lookup_insert_ne in Hv by done. apply Hkeys. eauto. }
  revert Hw. cbv zeta.
  generalize (match re_search true WITHDRAW_HEADER prefix with
              | Some withdraw_match =>
                  if negb (has_key "withdraw_header" markers) then
                    if negb (Str.contains (txt "total")
                               (Str.lower
                                  (Str.slice
                                     (Nat.max 0 (m_start withdraw_match - 10))
                                     (m_start withdraw_match) prefix)))
                    then <["withdraw_table" := m_end th]>
                           (<["withdraw_header" :=
                                m_start th - length prefix
                                + m_start withdraw_match]> markers)
                    else markers
                  else markers
              | None => markers
              end).
  intros m1 Hinv1.
  destruct (re_search true DEPOSIT_HEADER prefix) as [dm|] eqn:Ed; [|done].
  apply search_start_bound in Ed; [|done].
  destruct (has_key "deposit_header" m1) eqn:Ek; [done|].
  simpl. case_match; [|done].
  apply bool_decide_eq_false in Ek.
  destruct Hinv1 as (Hpw & Hpd & Hkeys).
  unfold headers_inv, paired in *.
  destruct (m1 !! "deposit_header") eqn:E1; [by destruct Ek|].
  destruct (m1 !! "deposit_table") eqn:E2; [done|].
  split_and!.
  - by rewrite !lookup_insert_ne by done.
  - rewrite lookup_insert_ne, lookup_insert_eq, lookup_insert_eq by done. lia.
  - intros key [v Hv].
    destruct (decide (key = "deposit_table")) as [->|]; [key_in|].
    destruct (decide (key = "deposit_header")) as [->|]; [key_in|].
    rewrite !lookup_insert_ne in Hv by done. apply Hkeys. eauto.
Qed.

Lemma headers_fold_inv text : forall ths markers,
  Forall (fun th => m_start th <= m_end th <= length text) ths ->
  headers_inv (length text) markers ->
  headers_inv (length text) (foldl (header_step text) markers ths).
Proof.
  induction ths as [|th ths IH]; intros markers Hths Hinv; simpl; [done|].
  apply Forall_cons in Hths as [Hth Hths].
  apply IH; [done|]. by apply header_step_inv.
Qed.

(** The markers of a page text: the pairs, the keys and the bounds. *)
Lemma find_section_markers_inv text :
  let markers := _find_section_markers text in
  paired (length text) markers "withdraw_header" "withdraw_table"
  /\ paired (length text) markers "deposit_header" "deposit_table"
  /\ (forall key, is_Some (markers !! key) -> key ∈ marker_keys)
  /\ (forall v, markers !! "total_withdraw" = Some v -> v <= length text)
  /\ (forall v, markers !! "total_deposit" = Some v -> v <= length text).
Proof.
  cbv zeta. unfold _find_section_markers.
  assert (H0 : headers_inv (length text)
                 (foldl (header_step text) ∅ (re_finditer true TABLE_HEADER text))).
  { apply headers_fold_inv.
    - eapply Forall_impl; [by apply finditer_extent|]. simpl. tauto.
    - unfold headers_inv, paired. rewrite !lookup_empty. split_and!; try done.
      intros key [v Hv]. by rewrite lookup_empty in Hv. }
  revert H0.
  generalize (foldl (header_step text) ∅ (re_finditer true TABLE_HEADER text)).
  intros m0 (Hpw & Hpd & Hkeys).
  set (m1 := match re_search true TOTAL_WITHDRAW text with
             | Some total_withdraw =>
                 <["total_withdraw" := m_start total_withdraw]> m0
             | None => m0
             end).
  set (m2 := match re_search true TOTAL_DEPOSIT text with
             | Some total_deposit =>
                 <["total_deposit" := m_start total_deposit]> m1
             | None => m1
             end).
  assert (Hsame : forall key,
            key ∈ ["withdraw_header"; "withdraw_table";
                   "deposit_header"; "deposit_table"] ->
            m2 !! key = m0 !! key).
  { intros key Hkey. unfold m2, m1.
    destruct (re_search true TOTAL_DEPOSIT text),
      (re_search true TOTAL_WITHDRAW text);
      rewrite ?lookup_insert_ne; try done;
      intros <-; key_out Hkey. }
  assert (Htw : forall v, m2 !! "total_withdraw" = Some v -> v <= length text).
  { intros v. unfold m2, m1.
    destruct (re_search true TOTAL_DEPOSIT text) as [td|];
      rewrite ?lookup_insert_ne by done;
      destruct (re_search true TOTAL_WITHDRAW text) as [tw|] eqn:Etw;
      rewrite ?lookup_insert_eq.
    - intros [= <-]. by apply (search_start_bound true TOTAL_WITHDRAW).
    - intros Hv. assert (Hs : is_Some (m0 !! "total_withdraw")) by eauto.
      apply Hkeys in Hs. key_out Hs.
    - intros [= <-]. by apply (search_start_bound true TOTAL_WITHDRAW).
    - intros Hv. assert (Hs : is_Some (m0 !! "total_withdraw")) by eauto.
      apply Hkeys in Hs. key_out Hs. }
  assert (Htd : forall v, m2 !! "total_deposit" = Some v -> v <= length text).
  { intros v. unfold m2.
    destruct (re_search true TOTAL_DEPOSIT text) as [td|] eqn:Etd;
      rewrite ?lookup_insert_eq.
    - intros [= <-]. by apply (search_start_bound true TOTAL_DEPOSIT).
    - unfold m1. destruct (re_search true TOTAL_WITHDRAW text) as [tw|];
        rewrite ?lookup_insert_ne by done;
        intros Hv; assert (Hs : is_Some (m0 !! "total_deposit")) by eauto;
        apply Hkeys in Hs; key_out Hs. }
  assert (Hk2 : forall key, is_Some (m2 !! key) -> key ∈ marker_keys).
  { intros key Hs. unfold marker_keys.
    destruct (decide (key = "total_deposit")) as [->|Hn1]; [key_in|].
    destruct (decide (key = "total_withdraw")) as [->|Hn2]; [key_in|].
    assert (Hs0 : is_Some (m0 !! key)).
    { revert Hs. unfold m2, m1.
      destruct (re_search true TOTAL_DEPOSIT text),
        (re_search true TOTAL_WITHDRAW text);
        by rewrite ?lookup_insert_ne by done. }
    apply Hkeys in Hs0. apply list_elem_of_In in Hs0.
    apply list_elem_of_In. simpl in *. tauto. }
  unfold paired. rewrite !Hsame by key_in. done.
Qed.

(** X7. In the markers of every page text, the header of a section and the
    table header under it are there together or not at all, the header
    before the end of its table header; every offset lies within the text;
    and the dictionary holds no other key than the six markers. *)
Theorem section_markers_come_in_pairs text :
  let markers := _find_section_markers text in
  (forall key, is_Some (markers !! key) -> key ∈ marker_keys)
  /\ (is_Some (markers !! "withdraw_header")
      <-> is_Some (markers !! "withdraw_table"))
  /\ (is_Some (markers !! "deposit_header")
      <-> is_Some (markers !! "deposit_table"))
  /\ (forall h t, markers !! "withdraw_header" = Some h ->
                  markers !! "withdraw_table" = Some t ->
                  h <= t <= length text)
  /\ (forall h t, markers !! "deposit_header" = Some h ->
                  markers !! "deposit_table" = Some t ->
                  h <= t <= length text)
  /\ (forall v, markers !! "total_withdraw" = Some v -> v <= length text)
  /\ (forall v, markers !! "total_deposit" = Some v -> v <= length text).
Proof.
  cbv zeta.
  destruct (find_section_markers_inv text) as (Hpw & Hpd & Hkeys & Htw & Htd).
  revert Hpw Hpd Hkeys Htw Htd. cbv zeta.
  generalize (_find_section_markers text). intros m Hpw Hpd Hkeys Htw Htd.
  unfold paired in Hpw, Hpd.
  split_and!; try done.
  - destruct (m !! "withdraw_header"), (m !! "withdraw_table");
      split; intros [? ?]; done || eauto.
  - destruct (m !! "deposit_header"), (m !! "deposit_table");
      split; intros [? ?]; done || eauto.
  - intros h t Hh Ht. rewrite Hh, Ht in Hpw. done.
  - intros h t Hh Ht. rewrite Hh, Ht in Hpd. done.
Qed.

(** * Sections out of their usual order *)

Lemma slice_empty (text : str) start end_ :
  end_ <= start -> Str.slice start end_ text = [].
Proof.
  intros H. unfold Str.slice. by replace (end_ - start) with 0 by lia.
Qed.

Lemma extract_nothing year transaction_type :
  _extract_transactions_from_text [] year transaction_type = Ok [].
Proof. reflexivity. Qed.

(** A page that prints its deposits before its withdrawals. *)
Definition deposits_first_page : Page :=
  mkPage (Some (txt "Deposits, credits and interest
DATE DESCRIPTION AMOUNT
03/15 PAYROLL DEPOSIT  20.00
Total deposits, credits and interest = $20.00
Other withdrawals, debits and service charges
DATE DESCRIPTION AMOUNT
03/16 ACH CORP DEBIT  10.00
Total other withdrawals, debits and service charges = $10.00
")).

(** A page whose account summary prints the total of the deposits before
    the deposits themselves. *)
Definition summary_first_page : Page :=
  mkPage (Some (txt "Account summary
Total deposits, credits and interest = $20.00
Your previous balance and your new balance are shown with the fees and the interest of this statement period.
Questions about this statement may be sent to the address printed on the first page of this statement.
Deposits, credits and interest
DATE DESCRIPTION AMOUNT
03/15 PAYROLL DEPOSIT  20.00
")).

(** X8. The withdrawals of a page end where its deposits header stands: when
    that header stands before the end of the withdrawals table header (the
    deposits are printed first), the page gives no withdrawal at all,
    whatever lines follow the withdrawals header. *)
Theorem withdrawals_after_deposits_are_dropped page year withdraw_table
    deposit_header :
  _find_section_markers (text_of page) !! "withdraw_table" = Some withdraw_table ->
  _find_section_markers (text_of page) !! "deposit_header" = Some deposit_header ->
  deposit_header <= withdraw_table ->
  extract_withdrawals_from_page page year = Ok [].
Proof.
  intros Hwt Hdh Hle.
  unfold extract_withdrawals_from_page, withdrawals_span, withdrawals_start.
  cbv zeta. rewrite Hwt, Hdh.
  rewrite slice_empty by done. apply extract_nothing.
Qed.

Lemma withdrawals_after_deposits_are_dropped_witness :
  extract_deposits_from_page deposits_first_page 2025
    = Ok [mkTransaction (datetime.mkdate 2025 3 15) (txt "PAYROLL DEPOSIT")
            (decimal.Finite false 2000 (-2)) DEPOSIT None None false false]
  /\ extract_withdrawals_from_page deposits_first_page 2025 = Ok [].
Proof.
  split; [vm_compute; reflexivity|].
  apply (withdrawals_after_deposits_are_dropped deposits_first_page 2025 199 0);
    [vm_compute; reflexivity | vm_compute; reflexivity | lia].
Defined.

(** X9. The deposits of a page end at the first [Total deposits] of its
    text: when that stands before the end of the deposits table header (in
    an account summary above the section, say), the page gives no deposit
    at all. *)
Theorem deposits_after_their_total_are_dropped page year deposit_table
    total_deposit :
  _find_section_markers (text_of page) !! "deposit_table" = Some deposit_table ->
  _find_section_markers (text_of page) !! "total_deposit" = Some total_deposit ->
  total_deposit <= deposit_table ->
  extract_deposits_from_page page year = Ok [].
Proof.
  intros Hdt Htd Hle.
  unfold extract_deposits_from_page, deposits_span, deposits_start.
  cbv zeta. rewrite Hdt, Htd.
  rewrite slice_empty by done. apply extract_nothing.
Qed.

Lemma deposits_after_their_total_are_dropped_witness :
  extract_deposits_from_page summary_first_page 2025 = Ok [].
Proof.
  apply (deposits_after_their_total_are_dropped summary_first_page 2025 329 16);
    [vm_compute; reflexivity | vm_compute; reflexivity | lia].
Defined.

(** X10. On a page with a withdrawals table and a deposits header, the
    withdrawals are read from the end of their table header up to the
    deposits header, and the deposits from the end of their own table
    header, which is not before the deposits header: no character of the
    page is read by both extractors. *)
Theorem headed_sections_do_not_overlap text withdraw_table deposit_header :
  _find_section_markers text !! "withdraw_table" = Some withdraw_table ->
  _find_section_markers text !! "deposit_header" = Some deposit_header ->
  exists deposit_table deposits_end,
    withdrawals_span text = Some (withdraw_table, deposit_header)
    /\ deposits_span text = Some (deposit_table, deposits_end)
    /\ deposit_header <= deposit_table <= length text.
Proof.
  intros Hwt Hdh.
  destruct (find_section_markers_inv text) as (_ & Hpd & _).
  revert Hpd. cbv zeta. unfold paired. rewrite Hdh.
  destruct (_find_section_markers text !! "deposit_table") as [dt|] eqn:Hdt;
    [|done].
  intros Hle.
  unfold withdrawals_span, deposits_span, withdrawals_start, deposits_start.
  cbv zeta. rewrite Hwt, Hdh, Hdt. eauto.
Qed.

(** The text of the page of the two-section statement. *)
Definition two_section_text : str :=
  match pages two_section_statement with
  | page :: _ => text_of page
  | [] => []
  end.

Lemma headed_sections_do_not_overlap_witness :
  exists deposit_table deposits_end,
    withdrawals_span two_section_text = Some (129, 219)
    /\ deposits_span two_section_text = Some (deposit_table, deposits_end)
    /\ 219 <= deposit_table <= length two_section_text.
Proof.
  apply (headed_sections_do_not_overlap two_section_text 129 219);
    vm_compute; reflexivity.
Defined.
